(** * AutoLeveling: a shallow embedding of src/server/lib/AutoLeveling.js

    The development follows the source file top to bottom: the JavaScript
    values the module computes with, the lodash helpers it imports, the
    command synthesizer [gcode], the [AutoLeveling] class (state, event
    handlers, grid planner, height-map load and save, [start], [stop]), and
    then the properties proved about them.

    Numbers.  A JavaScript number is NaN, an infinity or a finite value.
    Finite values are modelled by rationals with exact arithmetic, kept in
    lowest terms by the operations; this agrees with IEEE doubles on the
    integers and short decimal fractions a probing run works with, as long
    as no rounding occurs and no exponent notation is printed (magnitudes
    between 1e-6 and 1e21).  Negative zero is not distinguished.

    Strings.  A string is a sequence of code units below 256. *)

From Stdlib Require Import ZArith QArith Qround Qabs List String Ascii Bool Lia.
From Stdlib Require Import DecimalString DecimalZ Lqa.
From Stdlib Require Qcanon.
Import ListNotations.

Local Open Scope string_scope.
Local Open Scope list_scope.

(* ------------------------------------------------------------------ *)
(** ** JavaScript numbers and values *)

Inductive number :=
| NaN
| Infinity (negative : bool)
| Finite (q : Q).

Inductive value :=
| undefined
| null
| Num (n : number).

Definition num (z : Z) : value := Num (Finite (inject_Z z)).

(** ToNumber on the values of the model. *)
Definition ToNumber (v : value) : number :=
  match v with
  | undefined => NaN
  | null => Finite 0
  | Num n => n
  end.

(** The decimal digits of an integer, with a leading [-] when negative. *)
Definition Z_toString (z : Z) : string :=
  NilZero.string_of_int (Z.to_int z).

Definition digit_char (d : Z) : ascii :=
  ascii_of_nat (48 + Z.to_nat d).

(** Long division: the digits after the decimal point of [r / d], where
    [0 <= r < d]; stops when the remainder vanishes. *)
Fixpoint fraction_digits (fuel : nat) (r d : Z) : string :=
  match fuel with
  | O => ""
  | S fuel' =>
      if (r =? 0)%Z then ""
      else String (digit_char (r * 10 / d))
                  (fraction_digits fuel' ((r * 10) mod d) d)
  end.

Definition Q_toString (q : Q) : string :=
  let q' := Qred q in
  let n := Qnum q' in
  let d := Zpos (Qden q') in
  let a := Z.abs n in
  (if (n <? 0)%Z then "-" else "") ++
  Z_toString (a / d) ++
  (if (a mod d =? 0)%Z then "" else "." ++ fraction_digits 20 (a mod d) d).

(** Number::toString, radix 10, in positional notation: the text is the
    code's for integers below 1e21 and for the short decimal fractions of
    a probing run; the code prints numbers from 1e21 on, and below 1e-6,
    with an exponent, which the properties never rely on. *)
Definition Number_toString (n : number) : string :=
  match n with
  | NaN => "NaN"
  | Infinity false => "Infinity"
  | Infinity true => "-Infinity"
  | Finite q => Q_toString q
  end.

(** ToString, as applied by [String(..)], string concatenation and
    template literals. *)
Definition ToString (v : value) : string :=
  match v with
  | undefined => "undefined"
  | null => "null"
  | Num n => Number_toString n
  end.

(** [letter + value] with a string on the left: string concatenation. *)
Definition string_plus (s : string) (v : value) : string :=
  s ++ ToString v.

(** The abstract relational comparison [x < y] on numbers: [None] is the
    language's "undefined" answer, given when an operand is NaN. *)
Definition Number_lessThan (x y : number) : option bool :=
  match x, y with
  | NaN, _ | _, NaN => None
  | Infinity true, Infinity true => Some false
  | Infinity true, _ => Some true
  | _, Infinity true => Some false
  | Infinity false, _ => Some false
  | _, Infinity false => Some true
  | Finite a, Finite b => Some (negb (Qle_bool b a))
  end.

(** [x <= y]: compare [y < x]; true or undefined gives false. *)
Definition js_le (x y : number) : bool :=
  match Number_lessThan y x with
  | Some false => true
  | _ => false
  end.

(** Number::add, without the rounding of the sum to a double: the result
    is the code's whenever the exact sum is a double, as for integers of
    magnitude at most 2^53.  A property that depends on the value of a sum
    carries that condition ([exact_axis]); rounding never turns a sum with
    a step that is zero or negative into more than the value before, so a
    loop that such a step keeps from ending here is not ended by it. *)
Definition Number_add (x y : number) : number :=
  match x, y with
  | NaN, _ | _, NaN => NaN
  | Infinity a, Infinity b => if Bool.eqb a b then Infinity a else NaN
  | Infinity a, Finite _ => Infinity a
  | Finite _, Infinity b => Infinity b
  | Finite a, Finite b => Finite (Qred (a + b))
  end.

Definition Q_negative (q : Q) : bool := (Qnum q <? 0)%Z.
Definition Q_zero (q : Q) : bool := (Qnum q =? 0)%Z.

(** Number::divide. *)
Definition Number_divide (x y : number) : number :=
  match x, y with
  | NaN, _ | _, NaN => NaN
  | Infinity _, Infinity _ => NaN
  | Infinity a, Finite b => Infinity (xorb a (Q_negative b))
  | Finite _, Infinity _ => Finite 0
  | Finite a, Finite b =>
      if Q_zero b then (if Q_zero a then NaN else Infinity (Q_negative a))
      else Finite (Qred (a / b))
  end.

(** [a / b] on values. *)
Definition js_div (a b : value) : value :=
  Num (Number_divide (ToNumber a) (ToNumber b)).

Module Math.

(** Math.min of two arguments: both are converted to numbers, NaN wins,
    otherwise the smaller one is returned. *)
Definition min (a b : value) : value :=
  let x := ToNumber a in
  let y := ToNumber b in
  match Number_lessThan x y with
  | None => Num NaN
  | Some true => Num x
  | Some false => Num y
  end.

Definition max (a b : value) : value :=
  let x := ToNumber a in
  let y := ToNumber b in
  match Number_lessThan x y with
  | None => Num NaN
  | Some true => Num y
  | Some false => Num x
  end.

End Math.

(* ------------------------------------------------------------------ *)
(** ** lodash helpers and the command synthesizer *)

(** A plain object as the list of its own enumerable properties in
    enumeration order; for keys that are not array indices (the letters
    [gcode] is called with) that is insertion order. *)
Definition object := list (string * value).

Definition _isNil (v : value) : bool :=
  match v with
  | undefined | null => true
  | Num _ => false
  end.

(** [_.omitBy(obj, pred)]; an absent object gives the empty object. *)
Definition _omitBy (obj : option object) (pred : value -> bool) : object :=
  match obj with
  | None => []
  | Some o => filter (fun kv => negb (pred (snd kv))) o
  end.

(** [_.map(obj, fn)] calls [fn(value, key)] on each property. *)
Definition _map {B} (obj : object) (fn : value -> string -> B) : list B :=
  map (fun kv => fn (snd kv) (fst kv)) obj.

(** Array.prototype.join on an array of strings. *)
Fixpoint join (sep : string) (xs : list string) : string :=
  match xs with
  | [] => ""
  | [x] => x
  | x :: rest => x ++ sep ++ join sep rest
  end.

Definition gcode (cmd : string) (params : option object) : string :=
  let params := _omitBy params _isNil in
  let s := join " " (_map params (fun value letter => string_plus letter value)) in
  if (0 <? String.length s)%nat then cmd ++ " " ++ s else cmd.

(* ------------------------------------------------------------------ *)
(** ** Strings: character classes, split, trim, Number(..) *)

Definition is_digit (c : ascii) : bool :=
  let n := nat_of_ascii c in (48 <=? n)%nat && (n <=? 57)%nat.

(** White space and line terminators among the code units below 256:
    TAB, LF, VT, FF, CR, SP and NBSP.  This is the class [\s] and the set
    [trim] strips. *)
Definition is_space (c : ascii) : bool :=
  let n := nat_of_ascii c in
  ((9 <=? n)%nat && (n <=? 13)%nat) || (n =? 32)%nat || (n =? 160)%nat.

Definition is_char (a : ascii) (c : ascii) : bool := Ascii.eqb a c.

Definition newline : ascii := ascii_of_nat 10.

(** [s.split(sep)] for a one-character separator. *)
Fixpoint split (sep : ascii) (s : string) : list string :=
  match s with
  | EmptyString => [""]
  | String c rest =>
      let parts := split sep rest in
      if Ascii.eqb c sep then "" :: parts
      else match parts with
           | [] => [String c ""]
           | p :: ps => String c p :: ps
           end
  end.

Fixpoint trimStart (s : string) : string :=
  match s with
  | EmptyString => ""
  | String c rest => if is_space c then trimStart rest else s
  end.

Fixpoint trimEnd (s : string) : string :=
  match s with
  | EmptyString => ""
  | String c rest =>
      let rest' := trimEnd rest in
      if is_space c && (rest' =? "") then "" else String c rest'
  end.

Definition trim (s : string) : string := trimEnd (trimStart s).

(** The longest prefix of digits, and what follows it. *)
Fixpoint span_digits (s : string) : string * string :=
  match s with
  | EmptyString => ("", "")
  | String c rest =>
      if is_digit c
      then let (ds, tl) := span_digits rest in (String c ds, tl)
      else ("", s)
  end.

Definition digits_value (ds : string) : Z :=
  match NilEmpty.uint_of_string ds with
  | Some d => Z.of_uint d
  | None => 0
  end.

(** [Number(s)] on strings: white space is trimmed, the empty string is
    0, then an optional sign followed by [Infinity] or by a decimal
    literal [digits], [digits.], [digits.digits] or [.digits].  Exponent
    parts and the 0x/0o/0b forms are outside the model (they come out as
    NaN); the pattern of the height-map loader never captures them.  The
    literal is kept as it is written, without rounding to a double: the
    value is the code's when the literal is a double, as for integers of
    magnitude at most 2^53 ([safe_integer]), the condition the properties
    about parsed values carry. *)
Definition Number_of_string (s : string) : number :=
  let t := trim s in
  if t =? "" then Finite 0
  else
    let '(neg, u) :=
      match t with
      | String c u =>
          if Ascii.eqb c "-" then (true, u)
          else if Ascii.eqb c "+" then (false, u)
          else (false, t)
      | EmptyString => (false, t)
      end in
    if u =? "Infinity" then Infinity neg
    else
      let (ip, r1) := span_digits u in
      let (fp, r2) :=
        match r1 with
        | String c r => if Ascii.eqb c "." then span_digits r else ("", r1)
        | EmptyString => ("", r1)
        end in
      if (r2 =? "") && negb ((ip =? "") && (fp =? ""))
      then
        let scale := (10 ^ Z.of_nat (String.length fp))%Z in
        let m := (digits_value ip * scale + digits_value fp)%Z in
        Finite (Qred (Qmake (if neg then - m else m) (Z.to_pos scale)))
      else NaN.

(* ------------------------------------------------------------------ *)
(** ** Regular expressions: a backtracking matcher

    The fragment of the language's regular expressions the loader's
    pattern is written in, with the priorities of the backtracking
    matcher: a greedy quantifier tries one more iteration before it tries
    to go on, an alternation tries its left branch first. *)

Inductive RegExp :=
| Class (p : ascii -> bool)        (* one character of a class *)
| Seq (r1 r2 : RegExp)              (* r1 r2 *)
| Alt (r1 r2 : RegExp)              (* r1|r2 *)
| Opt (r : RegExp)                  (* r?  *)
| Star (r : RegExp)                 (* r*  *)
| Group (i : nat) (r : RegExp)      (* (r), capture group number i *)
| EndOfInput.                      (* $, no m flag *)

(** r+ *)
Definition Plus (r : RegExp) : RegExp := Seq r (Star r).

(** Capture groups: the most recent binding of a group is first. *)
Definition captures := list (nat * string).

Fixpoint capture (cs : captures) (i : nat) : option string :=
  match cs with
  | [] => None
  | (j, s) :: rest => if (i =? j)%nat then Some s else capture rest i
  end.

(** The text between the input position [from] and the later position
    [to], both given as the input that remains. *)
Definition consumed (from to : string) : string :=
  substring 0 (String.length from - String.length to) from.

Section Matcher.

Context {A : Type}.

(** The iterations of a greedy [r*], [body] being the matcher of [r]:
    one more iteration is tried before going on with [k].  An iteration
    that consumes nothing is rejected, so at most [length s] iterations
    are ever taken and [n] starts from there. *)
Fixpoint iterate
         (body : string -> captures ->
                 (string -> captures -> option A) -> option A)
         (k : string -> captures -> option A)
         (n : nat) (s : string) (cs : captures) : option A :=
  match n with
  | O => k s cs
  | S n' =>
      match body s cs
              (fun s' cs' =>
                 if (String.length s' <? String.length s)%nat
                 then iterate body k n' s' cs' else None) with
      | Some x => Some x
      | None => k s cs
      end
  end.

(** [run r s cs k]: match [r] at the input [s] with captures [cs] and
    go on with [k]; [None] is failure, which makes the caller
    backtrack. *)
Fixpoint run (r : RegExp) (s : string) (cs : captures)
         (k : string -> captures -> option A) {struct r} : option A :=
  match r with
  | Class p =>
      match s with
      | String c rest => if p c then k rest cs else None
      | EmptyString => None
      end
  | Seq r1 r2 => run r1 s cs (fun s' cs' => run r2 s' cs' k)
  | Alt r1 r2 =>
      match run r1 s cs k with
      | Some x => Some x
      | None => run r2 s cs k
      end
  | Opt r1 =>
      match run r1 s cs k with
      | Some x => Some x
      | None => k s cs
      end
  | Star r1 => iterate (run r1) k (String.length s) s cs
  | Group i r1 =>
      run r1 s cs (fun s' cs' => k s' ((i, consumed s s') :: cs'))
  | EndOfInput =>
      match s with
      | EmptyString => k s cs
      | String _ _ => None
      end
  end.

End Matcher.

(** One match: the input left at its start and at its end, and the
    capture groups. *)
Record match_result := {
  match_start : string;
  match_end : string;
  match_groups : captures;
}.

(** [match[i]]; [match[0]] is the matched text. *)
Definition match_get (m : match_result) (i : nat) : option string :=
  match i with
  | O => Some (consumed (match_start m) (match_end m))
  | _ => capture (match_groups m) i
  end.

(** RegExpBuiltinExec without the sticky flag: the first position at or
    after lastIndex where the pattern matches.  [s] is the input from
    lastIndex on. *)
Fixpoint exec (r : RegExp) (s : string) : option match_result :=
  match run r s [] (fun s' cs => Some (s', cs)) with
  | Some (s', cs) =>
      Some {| match_start := s; match_end := s'; match_groups := cs |}
  | None =>
      match s with
      | EmptyString => None
      | String _ rest => exec r rest
      end
  end.

(** The iteration behind [str.matchAll(r)] for a global [r]: [exec]
    from lastIndex, which then moves to the end of the match, one further
    when the match is empty; [None] stands for a lastIndex beyond the end
    of the input.  Every round moves lastIndex forward, so [fuel] rounds
    are enough once [fuel] exceeds the length of the input by two. *)
Fixpoint matchAll_from (fuel : nat) (r : RegExp) (s : option string)
  : list match_result :=
  match fuel, s with
  | S fuel', Some s0 =>
      match exec r s0 with
      | None => []
      | Some m =>
          let e := match_end m in
          let next :=
            if (String.length e <? String.length (match_start m))%nat
            then Some e
            else match e with
                 | EmptyString => None
                 | String _ rest => Some rest
                 end in
          m :: matchAll_from fuel' r next
      end
  | _, _ => []
  end.

Definition matchAll (s : string) (r : RegExp) : list match_result :=
  matchAll_from (String.length s + 2) r (Some s).

(* ------------------------------------------------------------------ *)
(** ** Number.prototype.toFixed *)

Fixpoint zeros (n : nat) : string :=
  match n with
  | O => ""
  | S n' => String "0" (zeros n')
  end.

(** [x.toFixed(f)] on a number: the integer [n] nearest to [x * 10^f]
    (the larger one on a tie) for the absolute value, padded with zeros
    and cut [f] digits from the right.  It is used for the text of the
    log line only; the code rounds the double nearest to [x], which can
    differ from [x] in the last digit printed. *)
Definition Number_toFixed (x : number) (f : nat) : string :=
  match x with
  | Finite q =>
      let a := Qabs q in
      if Qle_bool (inject_Z (10 ^ 21)) a then Number_toString x
      else
        let n := Qfloor (a * inject_Z (10 ^ Z.of_nat f) + (1 # 2)) in
        let m := Z_toString n in
        let m := (zeros (f + 1 - String.length m) ++ m)%string in
        let k := (String.length m - f)%nat in
        (if Q_negative q then "-" else "") ++
        (if (f =? 0)%nat then m
         else substring 0 k m ++ "." ++ substring k f m)
  | _ => Number_toString x
  end.

(* ------------------------------------------------------------------ *)
(** ** The world the class runs in: its state, the events it emits, the
    lines it logs, and the file system *)

Module ProbePoint.
Record t := make { x : value; y : value }.
End ProbePoint.

Module ProbedSample.
Record t := make { x : value; y : value; z : value }.
End ProbedSample.

Record LevelingState := {
  probePointCount : nat;
  probedPositions : list ProbedSample.t;
  minZ : value;
  maxZ : value;
}.

Inductive event :=
| probe_start
| probe_update (pos : ProbedSample.t)
| probe_end.

Inductive log_line :=
| debug (message : string)
| error (message : string).

(** The file system as [fs] sees it: the text a read of a path returns
    ([None]: the read faults), and the paths at which a write faults. *)
Record file_system := {
  files : string -> option string;
  write_faults : string -> bool;
}.

Record world := {
  state : LevelingState;
  emitted : list event;
  logged : list log_line;
  disk : file_system;
}.

Inductive exn :=
| TypeError
| IOError.

(** How a statement completes. *)
Inductive completion (A : Type) :=
| Normal (a : A)
| Throw (e : exn).
Arguments Normal {A} a.
Arguments Throw {A} e.

(** A computation of the class: it completes normally or throws, and in
    both cases leaves a world behind; what was assigned before a throw
    stays assigned. *)
Definition M (A : Type) : Type := world -> completion A * world.

Definition ret {A} (a : A) : M A := fun w => (Normal a, w).

Definition bind {A B} (m : M A) (k : A -> M B) : M B :=
  fun w =>
    match m w with
    | (Normal a, w') => k a w'
    | (Throw e, w') => (Throw e, w')
    end.

Definition throw {A} (e : exn) : M A := fun w => (Throw e, w).

(** [try { body } catch (err) { handler }]. *)
Definition try_catch {A} (body : M A) (handler : exn -> M A) : M A :=
  fun w =>
    match body w with
    | (Normal a, w') => (Normal a, w')
    | (Throw e, w') => handler e w'
    end.

Declare Scope js_scope.
Delimit Scope js_scope with js.
Notation "x <- m ;; k" := (bind m (fun x => k))
  (at level 61, m at next level, right associativity) : js_scope.
Notation "m ;; k" := (bind m (fun _ => k))
  (at level 61, right associativity) : js_scope.
Local Open Scope js_scope.

Definition getState : M LevelingState := fun w => (Normal (state w), w).

Definition with_state (w : world) (s : LevelingState) : world :=
  {| state := s; emitted := emitted w; logged := logged w; disk := disk w |}.

Definition log_debug (message : string) : M unit :=
  fun w => (Normal tt,
            {| state := state w; emitted := emitted w;
               logged := logged w ++ [debug message]; disk := disk w |}).

Definition log_error (message : string) : M unit :=
  fun w => (Normal tt,
            {| state := state w; emitted := emitted w;
               logged := logged w ++ [error message]; disk := disk w |}).

Definition fs_readFileSync (path : string) : M string :=
  fun w =>
    match files (disk w) path with
    | Some data => (Normal data, w)
    | None => (Throw IOError, w)
    end.

Definition fs_writeFileSync (path data : string) : M unit :=
  fun w =>
    if write_faults (disk w) path then (Throw IOError, w)
    else (Normal tt,
          {| state := state w; emitted := emitted w; logged := logged w;
             disk := {| files := fun p => if String.eqb p path then Some data
                                          else files (disk w) p;
                        write_faults := write_faults (disk w) |} |}).

(** [v.toFixed(f)]: reading a property of undefined or null throws. *)
Definition toFixed (v : value) (f : nat) : M string :=
  match v with
  | Num n => ret (Number_toFixed n f)
  | undefined | null => throw TypeError
  end.

(** A destructuring default: it applies to undefined only. *)
Definition default (d : value) (v : value) : value :=
  match v with
  | undefined => d
  | _ => v
  end.

(** [a <= b] and [a + b] on the values of the model (no strings). *)
Definition js_lte (a b : value) : bool := js_le (ToNumber a) (ToNumber b).
Definition js_add (a b : value) : value :=
  Num (Number_add (ToNumber a) (ToNumber b)).

Definition nat_toString (n : nat) : string := Z_toString (Z.of_nat n).

(* ------------------------------------------------------------------ *)
(** ** class AutoLeveling *)

Definition defaultState : LevelingState :=
  {| probePointCount := 0;
     probedPositions := [];
     minZ := num 0;
     maxZ := num 0 |}.

Definition setState (nextState : LevelingState) : M unit :=
  fun w => (Normal tt, with_state w nextState).

Definition resetState : M unit := setState defaultState.

(** The handlers the constructor registers for the three events. *)
Definition probeStart : M unit := ret tt.

Definition probeEnd : M unit := ret tt.

(** [this.emit('probe_end')]: the emission is recorded and the listener
    registered for it runs. *)
Definition emit_probe_end : M unit :=
  fun w =>
    probeEnd {| state := state w; emitted := emitted w ++ [probe_end];
                logged := logged w; disk := disk w |}.

Definition probeUpdate (pos : ProbedSample.t) : M unit :=
  this <- getState ;;
  if (probePointCount this <=? List.length (probedPositions this))%nat
  then ret tt
  else
    (if (List.length (probedPositions this) =? 0)%nat
     then setState {| probePointCount := probePointCount this;
                      minZ := ProbedSample.z pos;
                      maxZ := ProbedSample.z pos;
                      probedPositions := probedPositions this ++ [pos] |}
     else setState {| probePointCount := probePointCount this;
                      minZ := Math.min (minZ this) (ProbedSample.z pos);
                      maxZ := Math.max (maxZ this) (ProbedSample.z pos);
                      probedPositions := probedPositions this ++ [pos] |}) ;;
    this <- getState ;;
    posX <- toFixed (ProbedSample.x pos) 3 ;;
    posY <- toFixed (ProbedSample.y pos) 3 ;;
    posZ <- toFixed (ProbedSample.z pos) 3 ;;
    minZ' <- toFixed (minZ this) 3 ;;
    maxZ' <- toFixed (maxZ this) 3 ;;
    log_debug ("Probed " ++ nat_toString (List.length (probedPositions this))
               ++ "/" ++ nat_toString (probePointCount this)
               ++ ": posX=" ++ posX ++ ", posY=" ++ posY ++ ", posZ=" ++ posZ
               ++ ", minZ=" ++ minZ' ++ ", maxZ=" ++ maxZ' ++ ")") ;;
    emit_probe_end.

(** An event delivered to the emitter reaches the listener the
    constructor registered for it. *)
Definition deliver (e : event) : M unit :=
  match e with
  | probe_start => probeStart
  | probe_update pos => probeUpdate pos
  | probe_end => probeEnd
  end.

(** *** getProbeXYPositions *)

Record grid_options := {
  startX : value; endX : value; stepX : value;
  startY : value; endY : value; stepY : value;
}.

(** The inner loop, entered with [x] about to be tested.  [fuel] bounds
    the loop tests still allowed; [None]: the bound ran out before the
    loop ended. *)
Fixpoint for_x (fuel : nat) (endX stepX y x : value)
         (positions : list ProbePoint.t) : option (list ProbePoint.t) :=
  match fuel with
  | O => None
  | S fuel' =>
      if js_lte x endX
      then for_x fuel' endX stepX y (js_add x stepX)
                 (positions ++ [ProbePoint.make x y])
      else Some positions
  end.

Fixpoint for_y (fuel : nat) (startX endX stepX endY stepY y : value)
         (positions : list ProbePoint.t) : option (list ProbePoint.t) :=
  match fuel with
  | O => None
  | S fuel' =>
      if js_lte y endY
      then match for_x fuel' endX stepX y startX positions with
           | Some positions' =>
               for_y fuel' startX endX stepX endY stepY (js_add y stepY)
                     positions'
           | None => None
           end
      else Some positions
  end.

Definition getProbeXYPositions (fuel : nat) (options : grid_options)
  : option (list ProbePoint.t) :=
  let startX := default (num 0) (startX options) in
  let endX := default (num 0) (endX options) in
  let stepX := default (num 10) (stepX options) in
  let startY := default (num 0) (startY options) in
  let endY := default (num 0) (endY options) in
  let stepY := default (num 10) (stepY options) in
  for_y fuel startX endX stepX endY stepY startY [].

(** *** start and stop *)

Record start_options := {
  positions : option (list ProbePoint.t);
  feedrate : value;
  probeFeedrate : value;
  startZ : value;
  endZ : value;
}.

(** The body of [forEach((position, index) => ..)], pushing onto
    [probeGCodes]. *)
Definition probe_point (feedrate probeFeedrate startZ endZ : value)
           (position : ProbePoint.t) (index : nat)
           (probeGCodes : list string) : list string :=
  let x := ProbePoint.x position in
  let y := ProbePoint.y position in
  let probeGCodes :=
    probeGCodes ++
    [gcode ("(Auto Leveling: probing point " ++ nat_toString index ++ ")") None] in
  if (index =? 0)%nat
  then probeGCodes ++
       [gcode "G90" None;
        gcode "G0" (Some [("Z", startZ)]);
        gcode "G0" (Some [("X", x); ("Y", y); ("F", feedrate)]);
        gcode "G38.2" (Some [("Z", endZ); ("F", js_div probeFeedrate (num 2))]);
        gcode "G0" (Some [("Z", startZ)])]
  else probeGCodes ++
       [gcode "G90" None;
        gcode "G0" (Some [("X", x); ("Y", y); ("F", feedrate)]);
        gcode "G38.2" (Some [("Z", endZ); ("F", probeFeedrate)]);
        gcode "G0" (Some [("Z", startZ)])].

Fixpoint forEach_position (feedrate probeFeedrate startZ endZ : value)
         (positions : list ProbePoint.t) (index : nat)
         (probeGCodes : list string) : list string :=
  match positions with
  | [] => probeGCodes
  | position :: rest =>
      forEach_position feedrate probeFeedrate startZ endZ rest (S index)
        (probe_point feedrate probeFeedrate startZ endZ position index
                     probeGCodes)
  end.

Definition start (options : start_options)
           (callback : option (list string -> M unit)) : M (list string) :=
  let positions :=
    match positions options with Some ps => ps | None => [] end in
  let feedrate := feedrate options in
  let probeFeedrate := default (num 20) (probeFeedrate options) in
  let startZ := default (num 0) (startZ options) in
  let endZ := default (num 0) (endZ options) in
  let probeGCodes :=
    forEach_position feedrate probeFeedrate startZ endZ positions 0 [] in
  resetState ;;
  this <- getState ;;
  setState {| probePointCount := List.length positions;
              probedPositions := probedPositions this;
              minZ := minZ this;
              maxZ := maxZ this |} ;;
  match callback with
  | Some f => f probeGCodes
  | None => ret tt
  end ;;
  ret probeGCodes.

Definition stop : M unit := resetState.

(** *** The height-map file *)

(** /(-?\d*\.?\d+)?(\s+|$)/g *)
Definition regex : RegExp :=
  Seq (Opt (Group 1
         (Seq (Opt (Class (is_char "-")))
         (Seq (Star (Class is_digit))
         (Seq (Opt (Class (is_char ".")))
              (Plus (Class is_digit)))))))
      (Group 2 (Alt (Plus (Class is_space)) EndOfInput)).

(** [match[1] ? Number(match[1]) : undefined]; a string is truthy when it
    is not empty. *)
Definition match_value (m : match_result) : value :=
  match match_get m 1 with
  | Some s => if (0 <? String.length s)%nat
              then Num (Number_of_string s) else undefined
  | None => undefined
  end.

(** The body of [lines.forEach(line => ..)] on the three locals it
    updates. *)
Definition load_line (acc : list ProbedSample.t * value * value)
           (line : string) : list ProbedSample.t * value * value :=
  let '(probedPositions, minZ, maxZ) := acc in
  let matches := matchAll line regex in
  let values := map match_value matches in
  let x := nth 0 values undefined in
  let y := nth 1 values undefined in
  let z := nth 2 values undefined in
  (probedPositions ++ [ProbedSample.make x y z],
   Math.min z minZ,
   Math.max z maxZ).

Section Files.

(** The default export of ./json-stringify, a module whose code lies
    outside this file: it renders a path for the log and is taken as a
    parameter. *)
Variable json_stringify : string -> string.

(** [return false] in the handler leaves the function; otherwise it
    goes on after the try statement. *)
Definition loadProbedPositionsFromFile (filepath : string) : M bool :=
  loaded <-
    try_catch
      (data <- fs_readFileSync filepath ;;
       let lines :=
         filter (fun line => (0 <? String.length (trim line))%nat)
                (split newline data) in
       let '(probedPositions, minZ, maxZ) :=
         fold_left load_line lines
                   ([], Num (Infinity false), Num (Infinity true)) in
       this <- getState ;;
       setState {| probePointCount := List.length lines;
                   probedPositions := probedPositions;
                   minZ := minZ;
                   maxZ := maxZ |} ;;
       ret true)
      (fun err =>
         log_error "Error loading probed positions from file:" ;;
         ret false) ;;
  if loaded : bool
  then log_debug ("Probed positions successfully loaded from "
                  ++ json_stringify filepath) ;;
       ret true
  else ret false.

Definition sample_line (sample : ProbedSample.t) : string :=
  let x := ProbedSample.x sample in
  let y := ProbedSample.y sample in
  let z := ProbedSample.z sample in
  let a := num 0 in let b := num 0 in let c := num 0 in
  let u := num 0 in let v := num 0 in let w := num 0 in
  ToString x ++ " " ++ ToString y ++ " " ++ ToString z ++ " " ++
  ToString a ++ " " ++ ToString b ++ " " ++ ToString c ++ " " ++
  ToString u ++ " " ++ ToString v ++ " " ++ ToString w.

Definition saveProbedPositionsToFile (filepath : string) : M bool :=
  this <- getState ;;
  let probedPositions := probedPositions this in
  let data := join (String newline "") (map sample_line probedPositions) in
  saved <-
    try_catch
      (fs_writeFileSync filepath data ;; ret true)
      (fun err =>
         log_error "Error saving probed positions to file:" ;;
         ret false) ;;
  if saved : bool
  then log_debug ("Probed positions successfully saved to "
                  ++ json_stringify filepath) ;;
       ret true
  else ret false.

End Files.

(* ------------------------------------------------------------------ *)
(** ** Definitions used to state the properties *)

(** The command synthesizer in the words of its description: one token
    [LETTERvalue] per parameter whose value is present, in order, each
    appended to the line after a space. *)
Fixpoint present_tokens (params : object) : list string :=
  match params with
  | [] => []
  | (letter, undefined) :: rest => present_tokens rest
  | (letter, null) :: rest => present_tokens rest
  | (letter, Num n) :: rest =>
      (letter ++ Number_toString n)%string :: present_tokens rest
  end.

Fixpoint append_tokens (line : string) (tokens : list string) : string :=
  match tokens with
  | [] => line
  | t :: ts => append_tokens (line ++ " " ++ t)%string ts
  end.

Definition emit (command : string) (params : object) : string :=
  append_tokens command (present_tokens params).

(** A session that was never started, with nothing on disk. *)
Definition idle : world :=
  {| state := defaultState;
     emitted := [];
     logged := [];
     disk := {| files := fun _ => None; write_faults := fun _ => false |} |}.

(** Events delivered one after the other; a listener that throws throws
    into the code that delivered the event, and the session lives on. *)
Fixpoint deliver_all (events : list event) (w : world) : world :=
  match events with
  | [] => w
  | e :: rest => deliver_all rest (snd (deliver e w))
  end.

(** What a probe_update does to the LevelingState. *)
Definition absorb (s : LevelingState) (pos : ProbedSample.t) : LevelingState :=
  if (probePointCount s <=? List.length (probedPositions s))%nat then s
  else
    match probedPositions s with
    | [] => {| probePointCount := probePointCount s;
               probedPositions := [pos];
               minZ := ProbedSample.z pos;
               maxZ := ProbedSample.z pos |}
    | _ => {| probePointCount := probePointCount s;
              probedPositions := probedPositions s ++ [pos];
              minZ := Math.min (minZ s) (ProbedSample.z pos);
              maxZ := Math.max (maxZ s) (ProbedSample.z pos) |}
    end.

Definition is_number (v : value) : bool :=
  match v with
  | Num _ => true
  | undefined | null => false
  end.

(** A sample whose three coordinates are numbers. *)
Definition numeric (pos : ProbedSample.t) : bool :=
  is_number (ProbedSample.x pos) && is_number (ProbedSample.y pos)
  && is_number (ProbedSample.z pos).

(** The session ignores further samples. *)
Definition saturated (s : LevelingState) : Prop :=
  (probePointCount s <= List.length (probedPositions s))%nat.

(** Computations that leave the LevelingState alone. *)
Definition keeps_state {A} (m : M A) : Prop :=
  forall w, state (snd (m w)) = state w.

(** The part of the probe_update handler that follows the assignment of
    the state: the log line and the emission of probe_end. *)
Definition report (pos : ProbedSample.t) : M unit :=
  this <- getState ;;
  posX <- toFixed (ProbedSample.x pos) 3 ;;
  posY <- toFixed (ProbedSample.y pos) 3 ;;
  posZ <- toFixed (ProbedSample.z pos) 3 ;;
  minZ' <- toFixed (minZ this) 3 ;;
  maxZ' <- toFixed (maxZ this) 3 ;;
  log_debug ("Probed " ++ nat_toString (List.length (probedPositions this))
             ++ "/" ++ nat_toString (probePointCount this)
             ++ ": posX=" ++ posX ++ ", posY=" ++ posY ++ ", posZ=" ++ posZ
             ++ ", minZ=" ++ minZ' ++ ", maxZ=" ++ maxZ' ++ ")") ;;
  emit_probe_end.

(** A session in the middle of a two-point run, and one that has all the
    samples it was started for. *)
Definition collecting : world :=
  with_state idle
    {| probePointCount := 2;
       probedPositions := [ProbedSample.make (num 0) (num 0) (num 1)];
       minZ := num 1;
       maxZ := num 1 |}.

Definition complete : world :=
  with_state idle
    {| probePointCount := 1;
       probedPositions := [ProbedSample.make (num 0) (num 0) (num 1)];
       minZ := num 1;
       maxZ := num 1 |}.

(** Strings all of whose characters are of a class, and strings that
    start with a character of a class. *)
Fixpoint all_chars (p : ascii -> bool) (s : string) : bool :=
  match s with
  | EmptyString => true
  | String c rest => p c && all_chars p rest
  end.

Definition starts_with (p : ascii -> bool) (s : string) : bool :=
  match s with
  | EmptyString => false
  | String c _ => p c
  end.

(** The height map a file holds, in the words of the loader's
    description: the non-blank lines (those that do not consist of white
    space only), the first three tokens of each as x, y and z, and the
    running minimum and maximum of z. *)
Definition blank (line : string) : bool := all_chars is_space line.

Definition non_blank_lines (data : string) : list string :=
  filter (fun line => negb (blank line)) (split newline data).

Definition parsed_line (line : string) : ProbedSample.t :=
  let values := map match_value (matchAll line regex) in
  ProbedSample.make (nth 0 values undefined) (nth 1 values undefined)
                    (nth 2 values undefined).

Definition running_min (samples : list ProbedSample.t) (from : value) : value :=
  fold_left (fun m sample => Math.min (ProbedSample.z sample) m) samples from.

Definition running_max (samples : list ProbedSample.t) (from : value) : value :=
  fold_left (fun m sample => Math.max (ProbedSample.z sample) m) samples from.

Definition height_map (data : string) : LevelingState :=
  let samples := map parsed_line (non_blank_lines data) in
  {| probePointCount := List.length (non_blank_lines data);
     probedPositions := samples;
     minZ := running_min samples (Num (Infinity false));
     maxZ := running_max samples (Num (Infinity true)) |}.

(** The two samples of the persistence round trip, and a session that
    holds them. *)
Definition sample_123 : ProbedSample.t :=
  ProbedSample.make (num 1) (num 2) (num 3).

Definition sample_456 : ProbedSample.t :=
  ProbedSample.make (num 4) (num 5) (num 6).

Definition probed_twice : world :=
  with_state idle
    {| probePointCount := 2;
       probedPositions := [sample_123; sample_456];
       minZ := num 3;
       maxZ := num 6 |}.

(** The grid in the words of the planner's description: the values of
    an axis are [from], [from + step], ... as long as they do not exceed
    [to], and the points are listed row by row. *)
Fixpoint axis (n : nat) (from step : value) : list value :=
  match n with
  | O => []
  | S n' => from :: axis n' (js_add from step) step
  end.

Definition steps (from to step : Q) : nat :=
  if Qle_bool from to
  then S (Z.to_nat (Qfloor ((to - from) / step)))
  else O.

Definition grid (xs ys : list value) : list ProbePoint.t :=
  flat_map (fun y => map (fun x => ProbePoint.make x y) xs) ys.


(** A matcher that goes on, when it does, at a position no earlier than
    the one it was started at. *)
Definition shrinking {A : Type}
           (body : string -> captures ->
                   (string -> captures -> option A) -> option A) : Prop :=
  forall s cs k x,
    body s cs k = Some x ->
    exists s' cs',
      (String.length s' <= String.length s)%nat /\ k s' cs' = Some x.

(** How far lastIndex is from the point where [matchAll] stops. *)
Definition rounds_left (position : option string) : nat :=
  match position with
  | None => O
  | Some s => S (S (String.length s))
  end.

Definition not_space (c : ascii) : bool := negb (is_space c).

Definition other_than (sep : ascii) (c : ascii) : bool := negb (Ascii.eqb c sep).

(** The characters of a line written for integer coordinates. *)
Definition line_char (c : ascii) : bool :=
  is_digit c || is_char "-" c || is_char " " c.

(** What a greedy [r*] over a character class does on a run [ds] of the
    class followed by [rest]: it goes on after the whole run first, then
    after ever shorter parts of it. *)
Fixpoint longest_first {A} (k : string -> captures -> option A)
         (ds rest : string) (cs : captures) : option A :=
  match ds with
  | EmptyString => k rest cs
  | String d ds' =>
      match longest_first k ds' rest cs with
      | Some x => Some x
      | None => k (String d ds' ++ rest)%string cs
      end
  end.

(** The first group of the loader's pattern, and the match of a token
    followed by one space. *)
Definition number_pattern : RegExp :=
  Seq (Opt (Class (is_char "-")))
  (Seq (Star (Class is_digit))
  (Seq (Opt (Class (is_char ".")))
       (Plus (Class is_digit)))).

Definition token_match (tok rest : string) : match_result :=
  {| match_start := (tok ++ String " " rest)%string;
     match_end := rest;
     match_groups := [(2%nat, " "); (1%nat, tok)] |}.

(** A sample with integer coordinates, and the integers a double holds
    exactly. *)
Definition integer_sample (xyz : Z * Z * Z) : ProbedSample.t :=
  let '(a, b, c) := xyz in ProbedSample.make (num a) (num b) (num c).

Definition safe_integer (z : Z) : Prop := (Z.abs z <= 2 ^ 53)%Z.

Definition safe_sample (xyz : Z * Z * Z) : Prop :=
  let '(a, b, c) := xyz in
  safe_integer a /\ safe_integer b /\ safe_integer c.

(** The calls a user of the class makes. *)
Inductive call :=
| Start (options : start_options)
| Stop
| Deliver (e : event)
| Load (filepath : string)
| Save (filepath : string).

(** The session [new AutoLeveling()] creates, on a given disk. *)
Definition created (d : file_system) : world :=
  {| state := defaultState; emitted := []; logged := []; disk := d |}.

Section Calls.

Variable json_stringify : string -> string.

(** The world a call leaves behind, whether it returns or throws. *)
Definition perform (w : world) (c : call) : world :=
  match c with
  | Start options => snd (start options None w)
  | Stop => snd (stop w)
  | Deliver e => snd (deliver e w)
  | Load filepath => snd (loadProbedPositionsFromFile json_stringify filepath w)
  | Save filepath => snd (saveProbedPositionsToFile json_stringify filepath w)
  end.

Definition perform_all (calls : list call) (w : world) : world :=
  fold_left perform calls w.

End Calls.

(** A sample whose z is a finite number. *)
Definition finite_z (p : ProbedSample.t) : Prop :=
  exists q : Q, ProbedSample.z p = Num (Finite q).

(** The height envelope of a state: minZ and maxZ are finite, every
    probed z lies between them, and both are the z of a probed
    position. *)
Definition enveloped (s : LevelingState) : Prop :=
  exists lo hi : Q,
    minZ s = Num (Finite lo) /\ maxZ s = Num (Finite hi)
    /\ (forall p, In p (probedPositions s) ->
        exists q, ProbedSample.z p = Num (Finite q) /\ lo <= q /\ q <= hi)
    /\ (exists p, In p (probedPositions s) /\ ProbedSample.z p = minZ s)
    /\ (exists p, In p (probedPositions s) /\ ProbedSample.z p = maxZ s).

(** The field a line with the integer tokens [zs] gives at index [i]. *)
Definition field (zs : list Z) (i : nat) : value :=
  match nth_error zs i with
  | Some z => num z
  | None => undefined
  end.

(** The line that holds the integers [zs], one space between them. *)
Definition integers_line (zs : list Z) : string :=
  join " " (map Z_toString zs).

(** The instructions of one probe point: six for the point of index 0,
    five for every other one. *)
Definition point_block (feedrate probeFeedrate startZ endZ : value)
           (index : nat) (position : ProbePoint.t) : list string :=
  let marker :=
    ("(Auto Leveling: probing point " ++ nat_toString index ++ ")")%string in
  let retract := gcode "G0" (Some [("Z", startZ)]) in
  let move := gcode "G0" (Some [("X", ProbePoint.x position);
                                ("Y", ProbePoint.y position);
                                ("F", feedrate)]) in
  match index with
  | O => [marker; "G90"; retract; move;
          gcode "G38.2" (Some [("Z", endZ);
                               ("F", js_div probeFeedrate (num 2))]);
          retract]
  | S _ => [marker; "G90"; move;
            gcode "G38.2" (Some [("Z", endZ); ("F", probeFeedrate)]);
            retract]
  end.

Fixpoint point_blocks (feedrate probeFeedrate startZ endZ : value)
         (index : nat) (positions : list ProbePoint.t) : list string :=
  match positions with
  | [] => []
  | position :: rest =>
      point_block feedrate probeFeedrate startZ endZ index position
      ++ point_blocks feedrate probeFeedrate startZ endZ (S index) rest
  end.

(** Where the marker of point [i] stands in the instructions. *)
Definition marker_index (i : nat) : nat :=
  match i with
  | O => O
  | S _ => 5 * i + 1
  end.

(** The smallest and the largest of the third coordinates. *)
Definition third (xyz : Z * Z * Z) : Z := let '(_, _, c) := xyz in c.

Definition least (zs : list Z) (from : Z) : Z := fold_left Z.min zs from.
Definition greatest (zs : list Z) (from : Z) : Z := fold_left Z.max zs from.

(** Computations that leave the disk alone. *)
Definition keeps_disk {A} (m : M A) : Prop :=
  forall w, disk (snd (m w)) = disk w.

(** A disk on which every read and every write faults. *)
Definition faulty : file_system :=
  {| files := fun _ => None; write_faults := fun _ => true |}.

(** A disk with one file. *)
Definition one_file (path data : string) : file_system :=
  {| files := fun p => if String.eqb p path then Some data else None;
     write_faults := fun _ => false |}.

(** An axis the loops of the planner walk without rounding: start, end
    and step are integers, and every value the loop computes, up to the
    first one beyond the end, is an integer of magnitude at most 2^53,
    which a double holds exactly. *)
Definition exact_axis (from to step : Z) : Prop :=
  safe_integer from /\ safe_integer to /\ safe_integer step
  /\ (to + step <= 2 ^ 53)%Z.

Definition integer_options (sX eX dX sY eY dY : Z) : grid_options :=
  {| startX := num sX; endX := num eX; stepX := num dX;
     startY := num sY; endY := num eY; stepY := num dY |}.

(** How often a character occurs in a string. *)
Fixpoint count_char (c : ascii) (s : string) : nat :=
  match s with
  | EmptyString => O
  | String d rest =>
      (if Ascii.eqb d c then 1 else 0) + count_char c rest
  end.

(** Sessions used to instantiate the properties: a run started for three
    points, the same run after two samples, and a session whose first
    sample had no z. *)
Definition three_points : start_options :=
  {| positions := Some [ProbePoint.make (num 0) (num 0);
                        ProbePoint.make (num 10) (num 0);
                        ProbePoint.make (num 20) (num 0)];
     feedrate := undefined;
     probeFeedrate := undefined;
     startZ := undefined;
     endZ := undefined |}.

Definition started : world := snd (start three_points None idle).

Definition run_of_two : world :=
  deliver_all (map probe_update [sample_123; sample_456]) started.

Definition poisoned : world :=
  with_state idle
    {| probePointCount := 3;
       probedPositions := [ProbedSample.make (num 0) (num 0) undefined];
       minZ := Num NaN;
       maxZ := Num NaN |}.

(* ------------------------------------------------------------------ *)
(** * Properties *)

(** ** Strings *)

Lemma append_assoc (a b c : string) : ((a ++ b) ++ c = a ++ (b ++ c))%string.
Proof.
  induction a as [|ch a IH]; simpl; [reflexivity | now rewrite IH].
Qed.

Lemma append_empty_r (a : string) : (a ++ "")%string = a.
Proof.
  induction a as [|ch a IH]; simpl; [reflexivity | now rewrite IH].
Qed.

Lemma length_append (a b : string) :
  String.length (a ++ b)%string = (String.length a + String.length b)%nat.
Proof.
  induction a as [|ch a IH]; simpl; [reflexivity | now rewrite IH].
Qed.

Lemma Z_toString_length (z : Z) : (0 < String.length (Z_toString z))%nat.
Proof.
  unfold Z_toString, NilZero.string_of_int.
  destruct (Z.to_int z) as [d|d]; simpl.
  - unfold NilZero.string_of_uint. destruct d; simpl; lia.
  - lia.
Qed.

Lemma Number_toString_length (n : number) :
  (0 < String.length (Number_toString n))%nat.
Proof.
  destruct n as [|[|]|q]; simpl; try lia.
  unfold Q_toString. rewrite !length_append.
  pose proof (Z_toString_length (Z.abs (Qnum (Qred q)) / Z.pos (Qden (Qred q)))).
  lia.
Qed.

Lemma all_chars_append p a b :
  all_chars p (a ++ b)%string = all_chars p a && all_chars p b.
Proof.
  induction a as [|c a IH]; simpl; [reflexivity|].
  now rewrite IH, andb_assoc.
Qed.

Lemma all_chars_String p c s :
  all_chars p (String c s) = p c && all_chars p s.
Proof. reflexivity. Qed.

Lemma string_of_uint_digits (d : Decimal.uint) :
  all_chars is_digit (NilEmpty.string_of_uint d) = true.
Proof. induction d; simpl; auto. Qed.

Lemma NilZero_string_of_uint_shape (d : Decimal.uint) :
  d <> Decimal.Nil ->
  NilZero.string_of_uint d = NilEmpty.string_of_uint d
  /\ (0 < String.length (NilEmpty.string_of_uint d))%nat.
Proof.
  destruct d; intro N; try congruence; simpl; split; (reflexivity || lia).
Qed.

Lemma Z_toString_shape (z : Z) :
  exists ds : string,
    Z_toString z = ((if (z <? 0)%Z then "-" else "") ++ ds)%string
    /\ (0 < String.length ds)%nat
    /\ all_chars is_digit ds = true
    /\ digits_value ds = Z.abs z.
Proof.
  unfold Z_toString.
  destruct z as [|p|p].
  - exists "0". repeat split. simpl. lia.
  - pose proof (DecimalZ.of_to (Z.pos p)) as E. simpl in E.
    assert (N : Pos.to_uint p <> Decimal.Nil)
      by (intro D; rewrite D in E; discriminate E).
    destruct (NilZero_string_of_uint_shape _ N) as [S L].
    exists (NilEmpty.string_of_uint (Pos.to_uint p)).
    cbn [Z.to_int NilZero.string_of_int Z.ltb Z.compare]. rewrite S.
    split; [reflexivity|]. split; [exact L|].
    split; [apply string_of_uint_digits|].
    unfold digits_value. rewrite NilEmpty.usu. exact E.
  - pose proof (DecimalZ.of_to (Z.neg p)) as E. simpl in E.
    assert (N : Pos.to_uint p <> Decimal.Nil)
      by (intro D; rewrite D in E; discriminate E).
    destruct (NilZero_string_of_uint_shape _ N) as [S L].
    exists (NilEmpty.string_of_uint (Pos.to_uint p)).
    cbn [Z.to_int NilZero.string_of_int Z.ltb Z.compare]. rewrite S.
    split; [reflexivity|]. split; [exact L|].
    split; [apply string_of_uint_digits|].
    unfold digits_value. rewrite NilEmpty.usu. simpl. lia.
Qed.

Lemma all_chars_impl (p q : ascii -> bool) (s : string) :
  (forall c, p c = true -> q c = true) ->
  all_chars p s = true -> all_chars q s = true.
Proof.
  intro H. induction s as [|c s IH]; simpl; [reflexivity|].
  intro E. apply andb_prop in E as [E1 E2]. now rewrite (H _ E1), IH.
Qed.

Lemma digit_not_space (c : ascii) : is_digit c = true -> not_space c = true.
Proof.
  unfold is_digit, not_space, is_space. intro H.
  apply andb_prop in H as [H1 H2].
  apply Nat.leb_le in H1. apply Nat.leb_le in H2.
  apply negb_true_iff. apply orb_false_iff. split; [apply orb_false_iff; split|].
  - apply andb_false_iff. right. apply Nat.leb_nle. lia.
  - apply Nat.eqb_neq. lia.
  - apply Nat.eqb_neq. lia.
Qed.

Lemma digit_neq (c d : ascii) :
  is_digit c = true -> is_digit d = false -> Ascii.eqb c d = false.
Proof.
  intros Hc Hd. destruct (Ascii.eqb_spec c d); [congruence|reflexivity].
Qed.

Lemma trimStart_id (c : ascii) (s : string) :
  not_space c = true -> trimStart (String c s) = String c s.
Proof.
  unfold not_space. intro H. apply negb_true_iff in H. simpl. now rewrite H.
Qed.

Lemma trimEnd_id (s : string) :
  all_chars not_space s = true -> trimEnd s = s.
Proof.
  induction s as [|c s IH]; simpl; [reflexivity|].
  intro E. apply andb_prop in E as [E1 E2]. rewrite (IH E2).
  unfold not_space in E1. apply negb_true_iff in E1. now rewrite E1.
Qed.

Lemma trim_id (s : string) : all_chars not_space s = true -> trim s = s.
Proof.
  intro H. unfold trim. destruct s as [|c s]; [reflexivity|].
  pose proof H as H'. simpl in H'. apply andb_prop in H' as [H1 _].
  rewrite trimStart_id by exact H1. now apply trimEnd_id.
Qed.

Lemma span_digits_all (ds : string) :
  all_chars is_digit ds = true -> span_digits ds = (ds, "").
Proof.
  induction ds as [|c ds IH]; simpl; [reflexivity|].
  intro E. apply andb_prop in E as [E1 E2]. now rewrite E1, (IH E2).
Qed.

Lemma Qred_inject_Z (z : Z) : Qred (inject_Z z) = inject_Z z.
Proof. apply Qcanon.Qred_iff. simpl. apply Z.gcd_1_r. Qed.

Lemma ToString_num (z : Z) : ToString (num z) = Z_toString z.
Proof.
  unfold num, ToString, Number_toString, Q_toString.
  rewrite Qred_inject_Z. cbn [inject_Z Qnum Qden].
  rewrite Z.div_1_r, Z.mod_1_r. cbn [Z.eqb].
  rewrite append_empty_r.
  destruct z as [|p|p]; reflexivity.
Qed.

Lemma Number_of_string_Z_toString (z : Z) :
  Number_of_string (Z_toString z) = Finite (inject_Z z).
Proof.
  destruct (Z_toString_shape z) as (ds & E & L & D & V).
  assert (NS : all_chars not_space ds = true)
    by (eapply all_chars_impl; [apply digit_not_space | exact D]).
  destruct ds as [|c ds']; [simpl in L; lia|].
  pose proof D as Dc. simpl in Dc. apply andb_prop in Dc as [Dc _].
  unfold Number_of_string. rewrite E.
  assert (T : trim ((if (z <? 0)%Z then "-" else "") ++ String c ds')%string
              = ((if (z <? 0)%Z then "-" else "") ++ String c ds')%string).
  { apply trim_id. destruct (z <? 0)%Z; simpl; [|exact NS]. exact NS. }
  rewrite T.
  assert (I : (String c ds' =? "Infinity")%string = false).
  { simpl. now rewrite (digit_neq c "I"%char Dc eq_refl). }
  assert (P : span_digits (String c ds') = (String c ds', "")).
  { now apply span_digits_all. }
  destruct (z <? 0)%Z eqn:Neg.
  - change ("-" ++ String c ds')%string with (String "-" (String c ds')).
    change (String "-" (String c ds') =? "")%string with false.
    cbv beta iota zeta. rewrite Ascii.eqb_refl. cbv beta iota zeta.
    rewrite I, P.
    cbn -[Z.pow digits_value Qred]. rewrite V.
    f_equal. rewrite Z.mul_1_r, Z.add_0_r.
    apply Z.ltb_lt in Neg. rewrite Z.abs_neq by lia. rewrite Z.opp_involutive.
    apply Qred_inject_Z.
  - change ("" ++ String c ds')%string with (String c ds').
    assert (Ne : (String c ds' =? "")%string = false) by reflexivity.
    rewrite Ne. cbv beta iota zeta.
    rewrite (digit_neq c "-"%char Dc eq_refl), (digit_neq c "+"%char Dc eq_refl).
    cbv beta iota zeta. rewrite I, P. rewrite Ne.
    cbn -[Z.pow digits_value Qred]. rewrite V.
    f_equal. rewrite Z.mul_1_r, Z.add_0_r.
    apply Z.ltb_ge in Neg. rewrite Z.abs_eq by lia.
    apply Qred_inject_Z.
Qed.

(** A line survives the loader's filter [line.trim().length > 0] exactly
    when it is not blank. *)
Lemma trim_length_blank (line : string) :
  (0 <? String.length (trim line))%nat = negb (blank line).
Proof.
  unfold trim, blank. induction line as [|c line IH]; [reflexivity|].
  cbn [trimStart all_chars]. destruct (is_space c) eqn:E.
  - exact IH.
  - cbn [trimEnd]. now rewrite E.
Qed.

(** ** The matcher

    A match ends no earlier than it starts, so the rounds of [matchAll]
    move through the input and the bound on their number is never
    reached. *)

Section MatcherProperties.

Context {A : Type}.

Lemma iterate_reaches body (k : string -> captures -> option A) :
  shrinking body ->
  forall n s cs x,
    iterate body k n s cs = Some x ->
    exists s' cs',
      (String.length s' <= String.length s)%nat /\ k s' cs' = Some x.
Proof.
  intros Hb. induction n as [|n IH]; intros s cs x H; simpl in H.
  - exists s, cs. split; [lia | exact H].
  - destruct (body s cs _) as [y|] eqn:E.
    + injection H as ->.
      destruct (Hb _ _ _ _ E) as (s1 & cs1 & L1 & K1).
      destruct (String.length s1 <? String.length s)%nat eqn:Lt;
        [|discriminate].
      apply Nat.ltb_lt in Lt.
      destruct (IH _ _ _ K1) as (s2 & cs2 & L2 & K2).
      exists s2, cs2. split; [lia | exact K2].
    + exists s, cs. split; [lia | exact H].
Qed.

Lemma run_reaches (r : RegExp) : shrinking (run (A := A) r).
Proof.
  induction r as [p | r1 IH1 r2 IH2 | r1 IH1 r2 IH2 | r1 IH1 | r1 IH1
                 | i r1 IH1 | ]; intros s cs k x H; simpl in H.
  - destruct s as [|c rest]; [discriminate|].
    destruct (p c); [|discriminate].
    exists rest, cs. split; [simpl; lia | exact H].
  - destruct (IH1 _ _ _ _ H) as (s1 & cs1 & L1 & K1).
    destruct (IH2 _ _ _ _ K1) as (s2 & cs2 & L2 & K2).
    exists s2, cs2. split; [lia | exact K2].
  - destruct (run r1 s cs k) as [y|] eqn:E.
    + injection H as ->. now apply IH1 in E.
    + now apply IH2 in H.
  - destruct (run r1 s cs k) as [y|] eqn:E.
    + injection H as ->. now apply IH1 in E.
    + exists s, cs. split; [lia | exact H].
  - now apply (iterate_reaches (run r1) k IH1) in H.
  - destruct (IH1 _ _ _ _ H) as (s1 & cs1 & L1 & K1).
    exists s1, ((i, consumed s s1) :: cs1). split; [lia | exact K1].
  - destruct s; [|discriminate]. exists "", cs. split; [lia | exact H].
Qed.

End MatcherProperties.

Lemma exec_bounds (r : RegExp) (s : string) (m : match_result) :
  exec r s = Some m ->
  (String.length (match_end m) <= String.length (match_start m)
   <= String.length s)%nat.
Proof.
  induction s as [|c rest IH]; cbn [exec];
    destruct (run r _ [] _) as [[s' cs]|] eqn:E; intro H;
    try discriminate.
  - injection H as <-. cbn [match_start match_end].
    destruct (run_reaches r _ _ _ _ E) as (s1 & cs1 & L & K).
    injection K as <- <-. lia.
  - injection H as <-. cbn [match_start match_end].
    destruct (run_reaches r _ _ _ _ E) as (s1 & cs1 & L & K).
    injection K as <- <-. lia.
  - apply IH in H. simpl. lia.
Qed.

Lemma matchAll_from_enough (r : RegExp) :
  forall (fuel fuel' : nat) (position : option string),
    (rounds_left position <= fuel)%nat ->
    (rounds_left position <= fuel')%nat ->
    matchAll_from fuel r position = matchAll_from fuel' r position.
Proof.
  induction fuel as [|fuel IH]; intros fuel' position H H'.
  - destruct position; simpl in H; [lia|]. now destruct fuel'.
  - destruct position as [s|]; [|now destruct fuel'].
    destruct fuel' as [|fuel']; [simpl in H'; lia|].
    simpl in H, H'. cbn [matchAll_from].
    destruct (exec r s) as [m|] eqn:E; [|reflexivity].
    apply exec_bounds in E. f_equal.
    destruct (String.length (match_end m) <? String.length (match_start m))%nat
      eqn:Lt.
    + apply Nat.ltb_lt in Lt. apply IH; simpl; lia.
    + destruct (match_end m) as [|c rest] eqn:Em.
      * apply IH; simpl; lia.
      * simpl in E. apply IH; simpl; lia.
Qed.

Lemma matchAll_fuel (s : string) (r : RegExp) (fuel : nat) :
  (String.length s + 2 <= fuel)%nat ->
  matchAll_from fuel r (Some s) = matchAll s r.
Proof.
  intro H. unfold matchAll. apply matchAll_from_enough; simpl; lia.
Qed.

Section RunEquations.

Context {A : Type}.
Implicit Types (k : string -> captures -> option A).

Lemma run_Seq r1 r2 s cs k :
  run (Seq r1 r2) s cs k = run r1 s cs (fun s' cs' => run r2 s' cs' k).
Proof. reflexivity. Qed.

Lemma run_Opt r s cs k :
  run (Opt r) s cs k
  = match run r s cs k with Some x => Some x | None => k s cs end.
Proof. reflexivity. Qed.

Lemma run_Alt r1 r2 s cs k :
  run (Alt r1 r2) s cs k
  = match run r1 s cs k with Some x => Some x | None => run r2 s cs k end.
Proof. reflexivity. Qed.

Lemma run_Star r s cs k :
  run (Star r) s cs k = iterate (run r) k (String.length s) s cs.
Proof. reflexivity. Qed.

Lemma run_Plus r s cs k :
  run (Plus r) s cs k
  = run r s cs (fun s' cs' => iterate (run r) k (String.length s') s' cs').
Proof. reflexivity. Qed.

Lemma run_Group i r s cs k :
  run (Group i r) s cs k
  = run r s cs (fun s' cs' => k s' ((i, consumed s s') :: cs')).
Proof. reflexivity. Qed.

Lemma run_Class_cons p c rest cs k :
  run (Class p) (String c rest) cs k = if p c then k rest cs else None.
Proof. reflexivity. Qed.

Lemma run_Class_fails p s cs k :
  starts_with p s = false -> run (Class p) s cs k = None.
Proof. destruct s as [|c s]; simpl; [reflexivity|]. now intros ->. Qed.

End RunEquations.

Lemma iterate_Class {A} p (k : string -> captures -> option A) :
  forall ds n rest cs,
    all_chars p ds = true -> starts_with p rest = false ->
    (String.length ds <= n)%nat ->
    iterate (run (Class p)) k n (ds ++ rest)%string cs
    = longest_first k ds rest cs.
Proof.
  induction ds as [|d ds IH]; intros n rest cs Hp Hr Hn.
  - cbn [append longest_first]. destruct n as [|n]; [reflexivity|].
    cbn [iterate]. now rewrite run_Class_fails.
  - simpl in Hp. apply andb_prop in Hp as [Hd Hp].
    destruct n as [|n]; [simpl in Hn; lia|].
    cbn [iterate append]. rewrite run_Class_cons, Hd.
    replace (String.length (ds ++ rest) <? String.length (String d (ds ++ rest)))%nat
      with true by (symmetry; apply Nat.ltb_lt; simpl; lia).
    rewrite IH by (assumption || (simpl in Hn; lia)).
    reflexivity.
Qed.

Lemma is_char_digit (a d : ascii) :
  is_digit d = true -> is_digit a = false -> is_char a d = false.
Proof.
  intros Hd Ha. unfold is_char. rewrite Ascii.eqb_sym. now apply digit_neq.
Qed.

Lemma run_fraction_stops {A} (k : string -> captures -> option A) rest cs :
  starts_with is_digit rest = false ->
  starts_with (is_char ".") rest = false ->
  run (Seq (Opt (Class (is_char "."))) (Plus (Class is_digit))) rest cs k
  = None.
Proof.
  intros Hd Hp. rewrite run_Seq, run_Opt.
  rewrite (run_Class_fails (is_char ".")) by exact Hp.
  rewrite run_Plus. now rewrite (run_Class_fails is_digit) by exact Hd.
Qed.

Lemma run_last_digit {A} (k : string -> captures -> option A) d rest cs :
  is_digit d = true ->
  starts_with is_digit rest = false ->
  run (Seq (Opt (Class (is_char "."))) (Plus (Class is_digit)))
      (String d rest) cs k
  = k rest cs.
Proof.
  intros Hd Hr. rewrite run_Seq, run_Opt.
  assert (N : is_char "." d = false) by now apply is_char_digit.
  rewrite run_Class_cons, N, run_Plus, run_Class_cons, Hd.
  now rewrite (iterate_Class is_digit k "" _ rest cs)
    by (reflexivity || assumption || (simpl; lia)).
Qed.

Lemma longest_first_digits {A} (k : string -> captures -> option A) x :
  forall ds rest cs,
    (0 < String.length ds)%nat ->
    all_chars is_digit ds = true ->
    starts_with is_digit rest = false ->
    starts_with (is_char ".") rest = false ->
    k rest cs = Some x ->
    longest_first
      (fun s' cs' =>
         run (Seq (Opt (Class (is_char "."))) (Plus (Class is_digit)))
             s' cs' k)
      ds rest cs
    = Some x.
Proof.
  induction ds as [|d ds IH]; intros rest cs L D Hd Hp K; [simpl in L; lia|].
  simpl in D. apply andb_prop in D as [Dd D].
  cbn [longest_first]. destruct ds as [|d' ds'].
  - cbn [longest_first append].
    rewrite run_fraction_stops by assumption.
    now rewrite run_last_digit.
  - rewrite IH by (assumption || (simpl; lia)). reflexivity.
Qed.

Lemma run_number_pattern {A} (k : string -> captures -> option A) x :
  forall (negative : bool) ds rest cs,
    (0 < String.length ds)%nat ->
    all_chars is_digit ds = true ->
    starts_with is_digit rest = false ->
    starts_with (is_char ".") rest = false ->
    k rest cs = Some x ->
    run number_pattern
        ((if negative then "-" else "") ++ ds ++ rest)%string cs k
    = Some x.
Proof.
  intros negative ds rest cs L D Hd Hp K.
  assert (S : run (Seq (Star (Class is_digit))
                  (Seq (Opt (Class (is_char ".")))
                       (Plus (Class is_digit))))
                  (ds ++ rest)%string cs k = Some x).
  { rewrite run_Seq, run_Star. rewrite iterate_Class; try assumption.
    - now apply longest_first_digits.
    - rewrite length_append. lia. }
  unfold number_pattern. rewrite run_Seq, run_Opt.
  destruct negative.
  - change ("-" ++ ds ++ rest)%string with (String "-" (ds ++ rest)).
    rewrite run_Class_cons. unfold is_char at 1. rewrite Ascii.eqb_refl.
    now rewrite S.
  - change ("" ++ ds ++ rest)%string with (ds ++ rest)%string.
    rewrite run_Class_fails; [exact S|].
    destruct ds as [|d ds']; [simpl in L; lia|].
    simpl in D. apply andb_prop in D as [Dd _].
    cbn [append starts_with]. now apply is_char_digit.
Qed.

Lemma consumed_prefix (a b : string) : consumed (a ++ b)%string b = a.
Proof.
  unfold consumed. rewrite length_append.
  replace (String.length a + String.length b - String.length b)%nat
    with (String.length a) by lia.
  induction a as [|c a IH]; simpl.
  - now destruct b.
  - now rewrite IH.
Qed.

Lemma exec_unfold (r : RegExp) (s : string) :
  exec r s
  = match run r s [] (fun s' cs => Some (s', cs)) with
    | Some (s', cs) =>
        Some {| match_start := s; match_end := s'; match_groups := cs |}
    | None =>
        match s with
        | EmptyString => None
        | String _ rest => exec r rest
        end
    end.
Proof. destruct s; reflexivity. Qed.

Lemma exec_token (z : Z) (rest : string) :
  starts_with is_space rest = false ->
  exec regex (Z_toString z ++ String " " rest)%string
  = Some (token_match (Z_toString z) rest).
Proof.
  intro Hr.
  destruct (Z_toString_shape z) as (ds & E & L & D & _).
  set (tok := Z_toString z) in *.
  rewrite exec_unfold.
  change regex
    with (Seq (Opt (Group 1 number_pattern))
              (Group 2 (Alt (Plus (Class is_space)) EndOfInput))).
  rewrite run_Seq, run_Opt, run_Group.
  assert (R : run number_pattern (tok ++ String " " rest)%string []
                (fun s' cs' =>
                   run (Group 2 (Alt (Plus (Class is_space)) EndOfInput))
                       s' ((1%nat, consumed (tok ++ String " " rest)%string s')
                           :: cs')
                       (fun s'' cs'' => Some (s'', cs'')))
              = Some (rest, [(2%nat, " "); (1%nat, tok)])).
  { rewrite E, append_assoc.
    apply run_number_pattern; try assumption; try reflexivity.
    rewrite <- append_assoc, <- E. fold tok.
    rewrite consumed_prefix.
    rewrite run_Group, run_Alt, run_Plus, run_Class_cons.
    change (is_space " ") with true. cbv iota.
    rewrite (iterate_Class is_space _ "" _ rest)
      by (reflexivity || assumption || (simpl; lia)).
    cbn [longest_first].
    change (consumed (String " " rest) rest)
      with (consumed (" " ++ rest)%string rest).
    now rewrite (consumed_prefix " " rest). }
  now rewrite R.
Qed.

Lemma match_value_token (z : Z) (rest : string) :
  match_value (token_match (Z_toString z) rest) = num z.
Proof.
  unfold match_value, token_match, match_get. cbn [capture match_groups Nat.eqb].
  pose proof (Z_toString_length z) as L. apply Nat.ltb_lt in L. rewrite L.
  now rewrite Number_of_string_Z_toString.
Qed.

Lemma matchAll_from_token (fuel : nat) (z : Z) (rest : string) :
  starts_with is_space rest = false ->
  matchAll_from (S fuel) regex (Some (Z_toString z ++ String " " rest)%string)
  = token_match (Z_toString z) rest
    :: matchAll_from fuel regex (Some rest).
Proof.
  intro Hr. cbn [matchAll_from]. rewrite exec_token by exact Hr.
  cbn [token_match match_end match_start].
  replace (String.length rest
           <? String.length (Z_toString z ++ String " " rest)%string)%nat
    with true; [reflexivity|].
  symmetry. apply Nat.ltb_lt. rewrite length_append. simpl. lia.
Qed.

Lemma Z_toString_starts (z : Z) (s : string) :
  starts_with is_space (Z_toString z ++ s)%string = false.
Proof.
  destruct (Z_toString_shape z) as (ds & E & L & D & _). rewrite E.
  destruct (z <? 0)%Z; [reflexivity|].
  destruct ds as [|c ds]; [simpl in L; lia|].
  simpl in D. apply andb_prop in D as [Dc _].
  apply digit_not_space in Dc. unfold not_space in Dc.
  now apply negb_true_iff in Dc.
Qed.

(** ** The command synthesizer *)

Lemma join_cons (sep t : string) (ts : list string) :
  join sep (t :: ts)
  = (t ++ String.concat "" (map (fun u => sep ++ u) ts))%string.
Proof.
  revert t. induction ts as [|u ts IH]; intro t.
  - simpl. now rewrite append_empty_r.
  - change (join sep (t :: u :: ts))
      with (t ++ sep ++ join sep (u :: ts))%string.
    rewrite IH. simpl. destruct ts as [|v ts]; simpl.
    + now rewrite !append_empty_r.
    + now rewrite !append_assoc.
Qed.

Lemma append_tokens_concat (line : string) (ts : list string) :
  append_tokens line ts
  = (line ++ String.concat "" (map (fun u => " " ++ u) ts))%string.
Proof.
  revert line. induction ts as [|t ts IH]; intro line; simpl.
  - now rewrite append_empty_r.
  - rewrite IH. destruct ts as [|u ts]; simpl.
    + now rewrite !append_empty_r.
    + now rewrite !append_assoc.
Qed.

Lemma omitBy_tokens (params : object) :
  _map (_omitBy (Some params) _isNil)
       (fun value letter => string_plus letter value)
  = present_tokens params.
Proof.
  unfold _map, _omitBy.
  induction params as [|[letter v] rest IH]; simpl; [reflexivity|].
  destruct v as [| |n]; simpl; try exact IH.
  now rewrite IH.
Qed.

Lemma present_tokens_nil (params : object) :
  (forall kv, In kv params -> _isNil (snd kv) = true) ->
  present_tokens params = [].
Proof.
  induction params as [|[letter v] rest IH]; intro H; [reflexivity|].
  pose proof (H (letter, v) (or_introl eq_refl)) as Hv.
  destruct v; simpl in *; try discriminate; apply IH; intros; apply H; now right.
Qed.

Lemma present_tokens_length (params : object) :
  Forall (fun t => (0 < String.length t)%nat) (present_tokens params).
Proof.
  induction params as [|[letter v] rest IH]; simpl; [constructor|].
  destruct v as [| |n]; try exact IH.
  constructor; [|exact IH].
  rewrite length_append. pose proof (Number_toString_length n). lia.
Qed.

Lemma gcode_Some (cmd : string) (params : object) :
  gcode cmd (Some params) = emit cmd params.
Proof.
  unfold gcode, emit. rewrite omitBy_tokens, append_tokens_concat.
  pose proof (present_tokens_length params) as L.
  destruct (present_tokens params) as [|t ts].
  - simpl. now rewrite append_empty_r.
  - rewrite join_cons. inversion L as [|? ? Ht _]; subst.
    replace (0 <? String.length
               (t ++ String.concat "" (map (fun u => " " ++ u) ts))%string)%nat
      with true
      by (symmetry; apply Nat.ltb_lt; rewrite length_append; lia).
    change (map (fun u => (" " ++ u)%string) (t :: ts))
      with ((" " ++ t)%string :: map (fun u => (" " ++ u)%string) ts).
    destruct ts as [|u ts]; simpl; [now rewrite !append_empty_r|].
    reflexivity.
Qed.

(** C8. The command synthesizer returns the command followed by one
    LETTERvalue token per parameter whose value is present, each after a
    space and in the order of the parameters; parameters whose value is
    null or undefined leave no trace, and when no parameter remains (or
    none was given) the command alone is returned. *)
Theorem gcode_emits_present_parameters :
  forall (cmd : string) (params : object),
    gcode cmd (Some params) = emit cmd params
    /\ gcode cmd None = cmd
    /\ ((forall kv, In kv params -> _isNil (snd kv) = true) ->
        gcode cmd (Some params) = cmd).
Proof.
  intros cmd params.
  assert (E : gcode cmd (Some params) = emit cmd params)
    by apply gcode_Some.
  split; [exact E|]. split; [reflexivity|].
  intro H. rewrite E. unfold emit. now rewrite present_tokens_nil.
Qed.

Lemma gcode_emits_present_parameters_witness :
  (forall kv, In kv [("X", undefined); ("F", null)] -> _isNil (snd kv) = true)
  /\ gcode "G0" (Some [("X", undefined); ("F", null)]) = "G0"
  /\ gcode "G0" (Some [("X", num 10); ("Y", undefined); ("F", num 500)])
     = "G0 X10 F500".
Proof.
  assert (H : forall kv, In kv [("X", undefined); ("F", null)] ->
                         _isNil (snd kv) = true).
  { intros kv [<-|[<-|[]]]; reflexivity. }
  split; [exact H|]. split.
  - exact (proj2 (proj2 (gcode_emits_present_parameters
                           "G0" [("X", undefined); ("F", null)])) H).
  - etransitivity.
    + exact (proj1 (gcode_emits_present_parameters "G0"
                      [("X", num 10); ("Y", undefined); ("F", num 500)])).
    + vm_compute. reflexivity.
Defined.

(** ** The probe session *)

Lemma keeps_state_ret {A} (a : A) : keeps_state (ret a).
Proof. intro w. reflexivity. Qed.

Lemma keeps_state_throw {A} (e : exn) : keeps_state (@throw A e).
Proof. intro w. reflexivity. Qed.

Lemma keeps_state_bind {A B} (m : M A) (k : A -> M B) :
  keeps_state m -> (forall a, keeps_state (k a)) -> keeps_state (bind m k).
Proof.
  intros Hm Hk w. unfold bind. specialize (Hm w).
  destruct (m w) as [[a|e] w']; simpl in *; [|exact Hm].
  now rewrite Hk.
Qed.

Lemma keeps_state_try_catch {A} (body : M A) (handler : exn -> M A) :
  keeps_state body -> (forall e, keeps_state (handler e)) ->
  keeps_state (try_catch body handler).
Proof.
  intros Hb Hh w. unfold try_catch. specialize (Hb w).
  destruct (body w) as [[a|e] w']; simpl in *; [exact Hb|].
  now rewrite Hh.
Qed.

Lemma keeps_state_toFixed v f : keeps_state (toFixed v f).
Proof. destruct v; intro w; reflexivity. Qed.

Lemma keeps_state_getState : keeps_state getState.
Proof. intro w. reflexivity. Qed.

Lemma keeps_state_log_debug msg : keeps_state (log_debug msg).
Proof. intro w. reflexivity. Qed.

Lemma keeps_state_log_error msg : keeps_state (log_error msg).
Proof. intro w. reflexivity. Qed.

Lemma keeps_state_emit_probe_end : keeps_state emit_probe_end.
Proof. intro w. reflexivity. Qed.

Create HintDb keeps.

#[local] Hint Resolve keeps_state_ret keeps_state_throw keeps_state_toFixed
  keeps_state_getState keeps_state_log_debug keeps_state_log_error
  keeps_state_emit_probe_end : keeps.

Ltac keeps :=
  repeat first
    [ apply keeps_state_bind; [|intro]
    | apply keeps_state_try_catch; [|intro]
    | solve [auto with keeps] ].

Lemma keeps_state_report pos : keeps_state (report pos).
Proof. unfold report. keeps. Qed.

Lemma probeUpdate_saturated (pos : ProbedSample.t) (w : world) :
  saturated (state w) -> probeUpdate pos w = (Normal tt, w).
Proof.
  unfold saturated. intro H. apply Nat.leb_le in H.
  unfold probeUpdate, bind, getState. now rewrite H.
Qed.

Lemma probeUpdate_accepting (pos : ProbedSample.t) (w : world) :
  ~ saturated (state w) ->
  probeUpdate pos w = report pos (with_state w (absorb (state w) pos)).
Proof.
  unfold saturated. intro H. apply Nat.leb_nle in H.
  unfold probeUpdate, absorb, bind at 1, getState. rewrite H.
  unfold bind at 1.
  destruct (probedPositions (state w)) as [|p ps]; reflexivity.
Qed.

Lemma probeUpdate_state (pos : ProbedSample.t) (w : world) :
  state (snd (probeUpdate pos w)) = absorb (state w) pos.
Proof.
  destruct (le_dec (probePointCount (state w))
                   (List.length (probedPositions (state w)))) as [H|H].
  - rewrite probeUpdate_saturated by exact H.
    unfold absorb. apply Nat.leb_le in H. now rewrite H.
  - rewrite probeUpdate_accepting by exact H.
    now rewrite keeps_state_report.
Qed.

Lemma deliver_all_updates_state (samples : list ProbedSample.t) (w : world) :
  state (deliver_all (map probe_update samples) w)
  = fold_left absorb samples (state w).
Proof.
  revert w. induction samples as [|pos rest IH]; intro w; [reflexivity|].
  simpl. now rewrite IH, probeUpdate_state.
Qed.

Lemma absorb_count (s : LevelingState) (pos : ProbedSample.t) :
  probePointCount (absorb s pos) = probePointCount s.
Proof.
  unfold absorb.
  destruct (probePointCount s <=? _)%nat; [reflexivity|].
  destruct (probedPositions s); reflexivity.
Qed.

Lemma absorb_positions (s : LevelingState) (pos : ProbedSample.t) :
  ~ saturated s -> probedPositions (absorb s pos) = probedPositions s ++ [pos].
Proof.
  unfold saturated, absorb. intro H. apply Nat.leb_nle in H. rewrite H.
  destruct (probedPositions s); reflexivity.
Qed.

Lemma fold_absorb_fills (samples : list ProbedSample.t) (s : LevelingState) :
  (List.length (probedPositions s) + List.length samples
   <= probePointCount s)%nat ->
  probePointCount (fold_left absorb samples s) = probePointCount s
  /\ probedPositions (fold_left absorb samples s)
     = probedPositions s ++ samples.
Proof.
  revert s. induction samples as [|pos rest IH]; intros s H; simpl in *.
  - now rewrite app_nil_r.
  - assert (U : ~ saturated s) by (unfold saturated; lia).
    destruct (IH (absorb s pos)) as [C P].
    + rewrite absorb_count, absorb_positions, length_app by exact U.
      simpl. lia.
    + rewrite C, P, absorb_count, absorb_positions by exact U.
      now rewrite <- app_assoc.
Qed.

Lemma start_result (options : start_options) (w : world) :
  let ps := match positions options with Some ps => ps | None => [] end in
  start options None w
  = (Normal (forEach_position (feedrate options)
               (default (num 20) (probeFeedrate options))
               (default (num 0) (startZ options))
               (default (num 0) (endZ options)) ps 0 []),
     with_state w {| probePointCount := List.length ps;
                     probedPositions := [];
                     minZ := num 0;
                     maxZ := num 0 |}).
Proof. reflexivity. Qed.

Lemma Math_min_is_number (a b : value) : is_number (Math.min a b) = true.
Proof.
  unfold Math.min. destruct (Number_lessThan _ _) as [[|]|]; reflexivity.
Qed.

Lemma Math_max_is_number (a b : value) : is_number (Math.max a b) = true.
Proof.
  unfold Math.max. destruct (Number_lessThan _ _) as [[|]|]; reflexivity.
Qed.

Lemma absorb_numeric (s : LevelingState) (pos : ProbedSample.t) :
  ~ saturated s -> is_number (ProbedSample.z pos) = true ->
  is_number (minZ (absorb s pos)) = true
  /\ is_number (maxZ (absorb s pos)) = true.
Proof.
  unfold saturated, absorb. intros H Hz. apply Nat.leb_nle in H. rewrite H.
  destruct (probedPositions s); cbn [minZ maxZ]; [now split|].
  split; [apply Math_min_is_number | apply Math_max_is_number].
Qed.

Lemma report_numeric (pos : ProbedSample.t) (w : world) :
  numeric pos = true ->
  is_number (minZ (state w)) = true -> is_number (maxZ (state w)) = true ->
  fst (report pos w) = Normal tt
  /\ emitted (snd (report pos w)) = emitted w ++ [probe_end].
Proof.
  unfold numeric. destruct pos as [px py pz]. simpl.
  intros Hp Hmin Hmax. unfold report, bind, getState.
  destruct px, py, pz; try discriminate.
  destruct (minZ (state w)); try discriminate.
  destruct (maxZ (state w)); try discriminate.
  simpl. now split.
Qed.

Lemma report_throws (pos : ProbedSample.t) (w : world) :
  is_number (ProbedSample.z pos) = false ->
  fst (report pos w) = Throw TypeError
  /\ emitted (snd (report pos w)) = emitted w.
Proof.
  destruct pos as [px py pz]. simpl. intro Hz.
  unfold report, bind, getState.
  destruct px, py, pz; try discriminate; simpl; now split.
Qed.

Lemma Math_min_finite (a b : Q) :
  exists m, Math.min (Num (Finite a)) (Num (Finite b)) = Num (Finite m)
            /\ m <= a /\ m <= b /\ (m = a \/ m = b).
Proof.
  unfold Math.min. simpl.
  destruct (Qle_bool b a) eqn:E; simpl.
  - exists b. apply Qle_bool_iff in E.
    repeat split; auto using Qle_refl.
  - exists a. assert (L : a < b).
    { apply Qnot_le_lt. intro H. apply Qle_bool_iff in H. congruence. }
    repeat split; auto using Qle_refl, Qlt_le_weak.
Qed.

Lemma Math_max_finite (a b : Q) :
  exists m, Math.max (Num (Finite a)) (Num (Finite b)) = Num (Finite m)
            /\ a <= m /\ b <= m /\ (m = a \/ m = b).
Proof.
  unfold Math.max. simpl.
  destruct (Qle_bool b a) eqn:E; simpl.
  - exists a. apply Qle_bool_iff in E.
    repeat split; auto using Qle_refl.
  - exists b. assert (L : a < b).
    { apply Qnot_le_lt. intro H. apply Qle_bool_iff in H. congruence. }
    repeat split; auto using Qle_refl, Qlt_le_weak.
Qed.

(** C1, as the code has it.  Whatever the state was, [stop] and the reset
    that [start] performs leave probePointCount 0 and no probed
    positions, with minZ and maxZ reset to the number 0 (not to
    undefined); [start] then sets probePointCount to the number of
    positions it was given. *)
Theorem stop_and_start_reset_the_state :
  forall (w : world) (options : start_options),
    stop w = (Normal tt, with_state w defaultState)
    /\ resetState w = (Normal tt, with_state w defaultState)
    /\ state (snd (stop w))
       = {| probePointCount := 0; probedPositions := [];
            minZ := num 0; maxZ := num 0 |}
    /\ state (snd (start options None w))
       = {| probePointCount :=
              List.length (match positions options with
                           | Some ps => ps
                           | None => []
                           end);
            probedPositions := [];
            minZ := num 0; maxZ := num 0 |}.
Proof.
  intros w options. repeat split.
Qed.

(** C1 as stated fails: after [stop], minZ and maxZ are 0, not
    undefined. *)
Lemma stop_leaves_zero_not_undefined :
  state (snd (stop collecting))
  <> {| probePointCount := 0; probedPositions := [];
        minZ := undefined; maxZ := undefined |}
  /\ minZ (state (snd (stop collecting))) = num 0
  /\ maxZ (state (snd (start {| positions := None; feedrate := undefined;
                               probeFeedrate := undefined;
                               startZ := undefined; endZ := undefined |}
                            None collecting))) = num 0.
Proof.
  split; [|split; reflexivity].
  simpl. intro H. discriminate H.
Qed.

(** C4.  In a state with at least probePointCount probed positions a
    further probe_update changes nothing: the handler returns at once and
    the state is the very same, probed positions, minZ, maxZ
    and probePointCount.  In particular, after [start] with N positions
    and N updates there are N probed positions and one more update leaves
    the state as it is. *)
Theorem probeUpdate_ignored_when_saturated :
  (forall (w : world) (pos : ProbedSample.t),
      (probePointCount (state w)
       <= List.length (probedPositions (state w)))%nat ->
      probeUpdate pos w = (Normal tt, w))
  /\ (forall (w : world) (options : start_options)
             (ps : list ProbePoint.t) (samples : list ProbedSample.t)
             (pos : ProbedSample.t),
         positions options = Some ps ->
         List.length samples = List.length ps ->
         let w' := deliver_all (map probe_update samples)
                               (snd (start options None w)) in
         List.length (probedPositions (state w')) = List.length ps
         /\ state (snd (deliver (probe_update pos) w')) = state w').
Proof.
  split.
  - intros w pos H. now apply probeUpdate_saturated.
  - intros w options ps samples pos Hps Hlen w'.
    assert (F : probePointCount (state w') = List.length ps
                /\ probedPositions (state w') = samples).
    { subst w'. rewrite deliver_all_updates_state, start_result, Hps.
      simpl state.
      destruct (fold_absorb_fills samples
                  {| probePointCount := List.length ps;
                     probedPositions := []; minZ := num 0; maxZ := num 0 |})
        as [C P]; [simpl; lia|].
      now rewrite C, P. }
    destruct F as [C P]. split; [now rewrite P|].
    simpl deliver. rewrite probeUpdate_saturated; [reflexivity|].
    unfold saturated. rewrite C, P. lia.
Qed.

Lemma probeUpdate_ignored_when_saturated_witness :
  probeUpdate (ProbedSample.make (num 5) (num 5) (num 9)) complete
  = (Normal tt, complete)
  /\ state (snd (deliver (probe_update (ProbedSample.make (num 5) (num 5) (num 9)))
                  (deliver_all
                     [probe_update (ProbedSample.make (num 0) (num 0) (num 1))]
                     (snd (start {| positions := Some [ProbePoint.make (num 0) (num 0)];
                                    feedrate := num 500;
                                    probeFeedrate := undefined;
                                    startZ := num 5; endZ := num (-5) |}
                                 None idle)))))
     = {| probePointCount := 1;
          probedPositions := [ProbedSample.make (num 0) (num 0) (num 1)];
          minZ := num 1; maxZ := num 1 |}.
Proof.
  split.
  - apply (proj1 probeUpdate_ignored_when_saturated). simpl. lia.
  - etransitivity.
    + refine (proj2 (proj2 probeUpdate_ignored_when_saturated idle
               {| positions := Some [ProbePoint.make (num 0) (num 0)];
                  feedrate := num 500; probeFeedrate := undefined;
                  startZ := num 5; endZ := num (-5) |}
               [ProbePoint.make (num 0) (num 0)]
               [ProbedSample.make (num 0) (num 0) (num 1)]
               (ProbedSample.make (num 5) (num 5) (num 9))
               eq_refl eq_refl)).
    + vm_compute. reflexivity.
Defined.

(** C5.  In a session that still expects samples, the first accepted
    probe_update sets minZ = maxZ = pos.z, every later one sets
    minZ = min(minZ, pos.z) and maxZ = max(maxZ, pos.z), and each appends
    pos to the probed positions, in the order of delivery (for finite
    numbers min and max are the smaller and the larger of the two).  Fed
    with the heights 1, -2 and 3, a fresh session that expects at least
    three samples has minZ = maxZ = 1 after the first and minZ = -2,
    maxZ = 3 after the third. *)
Theorem probeUpdate_aggregates :
  (forall (w : world) (pos : ProbedSample.t),
      (List.length (probedPositions (state w))
       < probePointCount (state w))%nat ->
      let s := state w in
      let s' := state (snd (deliver (probe_update pos) w)) in
      probedPositions s' = probedPositions s ++ [pos]
      /\ probePointCount s' = probePointCount s
      /\ (probedPositions s = [] ->
          minZ s' = ProbedSample.z pos /\ maxZ s' = ProbedSample.z pos)
      /\ (probedPositions s <> [] ->
          minZ s' = Math.min (minZ s) (ProbedSample.z pos)
          /\ maxZ s' = Math.max (maxZ s) (ProbedSample.z pos))
      /\ (forall lo hi z : Q,
             probedPositions s <> [] ->
             minZ s = Num (Finite lo) -> maxZ s = Num (Finite hi) ->
             ProbedSample.z pos = Num (Finite z) ->
             exists lo' hi',
               minZ s' = Num (Finite lo') /\ maxZ s' = Num (Finite hi')
               /\ lo' <= lo /\ lo' <= z /\ (lo' = lo \/ lo' = z)
               /\ hi <= hi' /\ z <= hi' /\ (hi' = hi \/ hi' = z)))
  /\ (forall (w : world) (x1 y1 x2 y2 x3 y3 : value),
         probedPositions (state w) = [] ->
         (3 <= probePointCount (state w))%nat ->
         let p1 := ProbedSample.make x1 y1 (num 1) in
         let p2 := ProbedSample.make x2 y2 (num (-2)) in
         let p3 := ProbedSample.make x3 y3 (num 3) in
         let w1 := deliver_all [probe_update p1] w in
         let w3 := deliver_all [probe_update p1; probe_update p2;
                                probe_update p3] w in
         (minZ (state w1) = num 1 /\ maxZ (state w1) = num 1)
         /\ (minZ (state w3) = num (-2) /\ maxZ (state w3) = num 3)
         /\ probedPositions (state w3) = [p1; p2; p3]).
Proof.
  split.
  - intros w pos H s s'. subst s'. simpl deliver.
    rewrite probeUpdate_state. fold s.
    assert (U : ~ saturated s) by (unfold saturated; subst s; lia).
    assert (E : (probePointCount s <=? List.length (probedPositions s))%nat
                = false) by (apply Nat.leb_nle; exact U).
    split; [now apply absorb_positions|].
    split; [apply absorb_count|].
    unfold absorb. rewrite E.
    destruct (probedPositions s) as [|p ps] eqn:P; cbn [minZ maxZ].
    + split; [now split|]. split; [congruence|]. intros; congruence.
    + split; [discriminate|]. split; [now split|].
      intros lo hi z _ Hlo Hhi Hz. rewrite Hlo, Hhi, Hz.
      destruct (Math_min_finite lo z) as (lo' & -> & A1 & A2 & A3).
      destruct (Math_max_finite hi z) as (hi' & -> & B1 & B2 & B3).
      exists lo', hi'. repeat split; assumption.
  - intros w x1 y1 x2 y2 x3 y3 P C p1 p2 p3 w1 w3.
    subst w1 w3.
    change [probe_update p1] with (map probe_update [p1]).
    change [probe_update p1; probe_update p2; probe_update p3]
      with (map probe_update [p1; p2; p3]).
    rewrite !deliver_all_updates_state.
    set (n := probePointCount (state w)) in *.
    assert (S1 : absorb (state w) p1
                 = {| probePointCount := n; probedPositions := [p1];
                      minZ := num 1; maxZ := num 1 |}).
    { unfold absorb. rewrite P. fold n.
      replace (n <=? List.length (@nil ProbedSample.t))%nat with false
        by (symmetry; apply Nat.leb_nle; simpl; lia).
      reflexivity. }
    assert (S2 : absorb {| probePointCount := n; probedPositions := [p1];
                           minZ := num 1; maxZ := num 1 |} p2
                 = {| probePointCount := n; probedPositions := [p1; p2];
                      minZ := num (-2); maxZ := num 1 |}).
    { unfold absorb. cbn [probePointCount probedPositions minZ maxZ].
      replace (n <=? List.length [p1])%nat with false
        by (symmetry; apply Nat.leb_nle; simpl; lia).
      reflexivity. }
    assert (S3 : absorb {| probePointCount := n; probedPositions := [p1; p2];
                           minZ := num (-2); maxZ := num 1 |} p3
                 = {| probePointCount := n; probedPositions := [p1; p2; p3];
                      minZ := num (-2); maxZ := num 3 |}).
    { unfold absorb. cbn [probePointCount probedPositions minZ maxZ].
      replace (n <=? List.length [p1; p2])%nat with false
        by (symmetry; apply Nat.leb_nle; simpl; lia).
      reflexivity. }
    cbn [fold_left]. rewrite S1, S2, S3. cbn [minZ maxZ probedPositions].
    repeat split.
Qed.

Lemma probeUpdate_aggregates_witness :
  probedPositions
    (state (snd (deliver (probe_update
                            (ProbedSample.make (num 10) (num 0) (num (-2))))
                         collecting)))
  = [ProbedSample.make (num 0) (num 0) (num 1);
     ProbedSample.make (num 10) (num 0) (num (-2))]
  /\ minZ (state (deliver_all
                   [probe_update (ProbedSample.make (num 0) (num 0) (num 1));
                    probe_update (ProbedSample.make (num 10) (num 0) (num (-2)));
                    probe_update (ProbedSample.make (num 20) (num 0) (num 3))]
                   (with_state idle
                      {| probePointCount := 3; probedPositions := [];
                         minZ := num 0; maxZ := num 0 |})))
     = num (-2).
Proof.
  split.
  - refine (proj1 (proj1 probeUpdate_aggregates collecting
             (ProbedSample.make (num 10) (num 0) (num (-2))) _)).
    simpl. lia.
  - refine (proj1 (proj1 (proj2 (proj2 probeUpdate_aggregates
             (with_state idle
                {| probePointCount := 3; probedPositions := [];
                   minZ := num 0; maxZ := num 0 |})
             (num 0) (num 0) (num 10) (num 0) (num 20) (num 0)
             eq_refl _)))).
    simpl. lia.
Defined.

Lemma Number_lessThan_NaN_r (x : number) : Number_lessThan x NaN = None.
Proof. destruct x as [|[|]|q]; reflexivity. Qed.

(** C3, as the code has it.  The probe_update handler does not raise when
    the session is saturated, nor when pos.x, pos.y and pos.z are numbers.
    With pos.z absent in a session that still expects samples, the sample
    is appended and the missing z goes into the aggregates (minZ and maxZ
    are undefined after a first sample, NaN after a later one); the
    handler then raises a TypeError when it formats pos.z for its log
    line. *)
Theorem probeUpdate_raises_only_without_numbers :
  forall (w : world) (pos : ProbedSample.t),
    let s := state w in
    let s' := state (snd (deliver (probe_update pos) w)) in
    ((probePointCount s <= List.length (probedPositions s))%nat ->
     fst (deliver (probe_update pos) w) = Normal tt)
    /\ (numeric pos = true ->
        fst (deliver (probe_update pos) w) = Normal tt)
    /\ ((List.length (probedPositions s) < probePointCount s)%nat ->
        ProbedSample.z pos = undefined ->
        probedPositions s' = probedPositions s ++ [pos]
        /\ (probedPositions s = [] ->
            minZ s' = undefined /\ maxZ s' = undefined)
        /\ (probedPositions s <> [] ->
            minZ s' = Num NaN /\ maxZ s' = Num NaN)
        /\ fst (deliver (probe_update pos) w) = Throw TypeError).
Proof.
  intros w pos s s'. subst s'. simpl deliver. split; [|split].
  - intro H. now rewrite probeUpdate_saturated.
  - intro N.
    destruct (le_dec (probePointCount s) (List.length (probedPositions s)))
      as [H|H].
    + now rewrite probeUpdate_saturated.
    + rewrite probeUpdate_accepting by exact H.
      assert (Hz : is_number (ProbedSample.z pos) = true).
      { unfold numeric in N. now apply andb_prop in N. }
      destruct (absorb_numeric (state w) pos H Hz) as [A B].
      now apply report_numeric.
  - intros H Hz.
    assert (U : ~ saturated s) by (unfold saturated; lia).
    rewrite probeUpdate_state. fold s.
    split; [now apply absorb_positions|].
    assert (E : (probePointCount s <=? List.length (probedPositions s))%nat
                = false) by (apply Nat.leb_nle; exact U).
    unfold absorb. rewrite E, Hz.
    destruct (probedPositions s) as [|p ps] eqn:P; cbn [minZ maxZ].
    + split; [now split|]. split; [congruence|].
      subst s. rewrite probeUpdate_accepting by exact U.
      apply report_throws. now rewrite Hz.
    + split; [discriminate|]. split.
      * intros _. unfold Math.min, Math.max. simpl ToNumber.
        now rewrite !Number_lessThan_NaN_r.
      * subst s. rewrite probeUpdate_accepting by exact U.
        apply report_throws. now rewrite Hz.
Qed.

Lemma probeUpdate_raises_only_without_numbers_witness :
  fst (deliver (probe_update (ProbedSample.make (num 5) (num 5) (num 9)))
               complete) = Normal tt
  /\ fst (deliver (probe_update (ProbedSample.make (num 10) (num 0) (num 2)))
                  collecting) = Normal tt
  /\ minZ (state (snd (deliver
                         (probe_update
                            (ProbedSample.make (num 10) (num 0) undefined))
                         collecting))) = Num NaN.
Proof.
  split; [|split].
  - refine (proj1 (probeUpdate_raises_only_without_numbers complete
                     (ProbedSample.make (num 5) (num 5) (num 9))) _).
    simpl. lia.
  - exact (proj1 (proj2 (probeUpdate_raises_only_without_numbers collecting
                     (ProbedSample.make (num 10) (num 0) (num 2)))) eq_refl).
  - refine (proj1 (proj1 (proj2 (proj2 (proj2 (proj2
             (probeUpdate_raises_only_without_numbers collecting
                (ProbedSample.make (num 10) (num 0) undefined)))
             _ eq_refl))) _)).
    + simpl. lia.
    + discriminate.
Defined.

(** C3 as stated fails: a probe_update without pos.z, delivered to a
    session that expects a second sample, raises. *)
Lemma probeUpdate_without_z_raises :
  fst (deliver (probe_update (ProbedSample.make (num 10) (num 0) undefined))
               collecting)
  = Throw TypeError.
Proof. reflexivity. Qed.

(** C6, as the code has it.  A probe_update that the session accepts (it
    still expects samples) and whose coordinates are numbers is followed
    by exactly one probe_end emitted by the session; a probe_update
    delivered to a saturated session is ignored and nothing is
    emitted. *)
Theorem probeUpdate_emits_probe_end_when_accepted :
  forall (w : world) (pos : ProbedSample.t),
    let s := state w in
    ((List.length (probedPositions s) < probePointCount s)%nat ->
     numeric pos = true ->
     fst (deliver (probe_update pos) w) = Normal tt
     /\ emitted (snd (deliver (probe_update pos) w))
        = emitted w ++ [probe_end])
    /\ ((probePointCount s <= List.length (probedPositions s))%nat ->
        fst (deliver (probe_update pos) w) = Normal tt
        /\ emitted (snd (deliver (probe_update pos) w)) = emitted w).
Proof.
  intros w pos s. simpl deliver. split.
  - intros H N.
    assert (U : ~ saturated s) by (unfold saturated; lia).
    rewrite probeUpdate_accepting by exact U.
    assert (Hz : is_number (ProbedSample.z pos) = true).
    { unfold numeric in N. now apply andb_prop in N. }
    destruct (absorb_numeric (state w) pos U Hz) as [A B].
    destruct (report_numeric pos (with_state w (absorb (state w) pos)) N A B)
      as [R E].
    split; [exact R | exact E].
  - intro H. now rewrite probeUpdate_saturated.
Qed.

Lemma probeUpdate_emits_probe_end_when_accepted_witness :
  emitted (snd (deliver (probe_update
                           (ProbedSample.make (num 10) (num 0) (num 2)))
                        collecting))
  = [probe_end]
  /\ emitted (snd (deliver (probe_update
                              (ProbedSample.make (num 5) (num 5) (num 9)))
                           complete))
     = [].
Proof.
  split.
  - refine (proj2 (proj1 (probeUpdate_emits_probe_end_when_accepted collecting
             (ProbedSample.make (num 10) (num 0) (num 2))) _ eq_refl)).
    simpl. lia.
  - refine (proj2 (proj2 (probeUpdate_emits_probe_end_when_accepted complete
             (ProbedSample.make (num 5) (num 5) (num 9))) _)).
    simpl. lia.
Defined.

(** C6 as stated fails: a probe_update delivered to a saturated session
    is handled without any probe_end being emitted. *)
Lemma probeUpdate_saturated_emits_nothing :
  fst (deliver (probe_update (ProbedSample.make (num 5) (num 5) (num 9)))
               complete) = Normal tt
  /\ ~ In probe_end
       (emitted (snd (deliver (probe_update
                                 (ProbedSample.make (num 5) (num 5) (num 9)))
                              complete))).
Proof.
  split; [reflexivity|]. simpl. tauto.
Qed.

(** C7.  A two-point [start] with feedrate 500, probeFeedrate 20,
    startZ 5 and endZ -5 returns, for point 0, the index marker, G90, the
    retract [G0 Z5], the XY move with F500, the probe move [G38.2 Z-5 F10]
    (probeFeedrate halved) and the retract [G0 Z5]; for point 1 the same
    without the leading retract and with the probe move at F20. *)
Theorem start_two_points :
  forall (w : world) (x0 y0 x1 y1 : number),
    fst (start {| positions := Some [ProbePoint.make (Num x0) (Num y0);
                                     ProbePoint.make (Num x1) (Num y1)];
                  feedrate := num 500;
                  probeFeedrate := num 20;
                  startZ := num 5;
                  endZ := num (-5) |} None w)
    = Normal
        ["(Auto Leveling: probing point 0)";
         "G90";
         "G0 Z5";
         "G0 X" ++ Number_toString x0 ++ " Y" ++ Number_toString y0 ++ " F500";
         "G38.2 Z-5 F10";
         "G0 Z5";
         "(Auto Leveling: probing point 1)";
         "G90";
         "G0 X" ++ Number_toString x1 ++ " Y" ++ Number_toString y1 ++ " F500";
         "G38.2 Z-5 F20";
         "G0 Z5"]%string.
Proof.
  intros w x0 y0 x1 y1. rewrite start_result. cbn [fst positions].
  assert (XY : forall x y : number,
             gcode "G0" (Some [("X", Num x); ("Y", Num y); ("F", num 500)])
             = ("G0 X" ++ Number_toString x ++ " Y" ++ Number_toString y
                ++ " F500")%string).
  { intros x y. rewrite gcode_Some. unfold emit, num.
    cbn [present_tokens append_tokens].
    change (Number_toString (Finite (inject_Z 500))) with "500".
    rewrite !append_assoc. reflexivity. }
  cbn [forEach_position]. unfold probe_point.
  cbn [Nat.eqb ProbePoint.x ProbePoint.y app feedrate probeFeedrate startZ
       endZ default num].
  rewrite !XY. reflexivity.
Qed.

(** ** The height-map file *)

Lemma fold_load_line (lines : list string)
      (acc : list ProbedSample.t) (lo hi : value) :
  fold_left load_line lines (acc, lo, hi)
  = (acc ++ map parsed_line lines,
     running_min (map parsed_line lines) lo,
     running_max (map parsed_line lines) hi).
Proof.
  revert acc lo hi.
  induction lines as [|line rest IH]; intros acc lo hi; cbn [fold_left map].
  - now rewrite app_nil_r.
  - change (load_line (acc, lo, hi) line)
      with (acc ++ [parsed_line line],
            Math.min (ProbedSample.z (parsed_line line)) lo,
            Math.max (ProbedSample.z (parsed_line line)) hi).
    rewrite IH. unfold running_min, running_max. cbn [fold_left].
    now rewrite <- app_assoc.
Qed.

Lemma sample_line_integers (a b c : Z) :
  sample_line (integer_sample (a, b, c))
  = (Z_toString a ++ String " " (Z_toString b ++ String " "
       (Z_toString c ++ String " " "0 0 0 0 0 0")))%string.
Proof.
  unfold sample_line, integer_sample.
  cbn [ProbedSample.x ProbedSample.y ProbedSample.z].
  rewrite !ToString_num. reflexivity.
Qed.

Lemma parsed_line_integers (a b c : Z) :
  parsed_line (sample_line (integer_sample (a, b, c)))
  = integer_sample (a, b, c).
Proof.
  rewrite sample_line_integers. unfold parsed_line.
  set (line := (Z_toString a ++ _)%string).
  rewrite <- (matchAll_fuel line regex (3 + (String.length line + 2)))
    by lia.
  subst line. cbn [Nat.add].
  rewrite !matchAll_from_token
    by (apply Z_toString_starts || reflexivity).
  cbn [map nth]. now rewrite !match_value_token.
Qed.

Lemma split_without (sep : ascii) (s : string) :
  all_chars (other_than sep) s = true -> split sep s = [s].
Proof.
  induction s as [|c s IH]; simpl; [reflexivity|].
  intro H. apply andb_prop in H as [Hc Hs].
  unfold other_than in Hc. apply negb_true_iff in Hc.
  now rewrite Hc, (IH Hs).
Qed.

Lemma split_append (sep : ascii) (a b : string) :
  all_chars (other_than sep) a = true ->
  split sep (a ++ String sep b)%string = a :: split sep b.
Proof.
  induction a as [|c a IH]; simpl.
  - intros _. now rewrite Ascii.eqb_refl.
  - intro H. apply andb_prop in H as [Hc Ha].
    unfold other_than in Hc. apply negb_true_iff in Hc.
    now rewrite Hc, (IH Ha).
Qed.

Lemma split_join (sep : ascii) (lines : list string) :
  lines <> [] ->
  Forall (fun line => all_chars (other_than sep) line = true) lines ->
  split sep (join (String sep "") lines) = lines.
Proof.
  induction lines as [|line rest IH]; intros N F; [congruence|].
  inversion F as [|? ? Hl Hr]; subst.
  destruct rest as [|line' rest'].
  - simpl. now apply split_without.
  - change (join (String sep "") (line :: line' :: rest'))
      with (line ++ String sep (join (String sep "") (line' :: rest')))%string.
    rewrite split_append by exact Hl. f_equal. apply IH; [discriminate|exact Hr].
Qed.

Lemma filter_all {X} (f : X -> bool) (l : list X) :
  Forall (fun x => f x = true) l -> filter f l = l.
Proof.
  induction 1 as [|x l Hx _ IH]; simpl; [reflexivity|]. now rewrite Hx, IH.
Qed.

Lemma line_char_not_newline (c : ascii) :
  line_char c = true -> other_than newline c = true.
Proof.
  unfold other_than. intro H. apply negb_true_iff.
  destruct (Ascii.eqb_spec c newline) as [->|]; [|reflexivity].
  discriminate H.
Qed.

Lemma Z_toString_line_chars (z : Z) : all_chars line_char (Z_toString z) = true.
Proof.
  destruct (Z_toString_shape z) as (ds & E & _ & D & _). rewrite E.
  rewrite all_chars_append. apply andb_true_intro. split.
  - now destruct (z <? 0)%Z.
  - eapply all_chars_impl; [|exact D].
    intros c Hc. unfold line_char. now rewrite Hc.
Qed.

Lemma sample_line_chars (a b c : Z) :
  all_chars (other_than newline) (sample_line (integer_sample (a, b, c)))
  = true.
Proof.
  apply (all_chars_impl line_char); [apply line_char_not_newline|].
  rewrite sample_line_integers.
  repeat (rewrite all_chars_append || rewrite Z_toString_line_chars
          || rewrite all_chars_String).
  reflexivity.
Qed.

Lemma trim_not_empty (s : string) :
  starts_with is_space s = false -> (0 < String.length s)%nat ->
  (0 <? String.length (trim s))%nat = true.
Proof.
  destruct s as [|c s]; simpl; [lia|]. intros Hc _.
  unfold trim. cbn [trimStart]. rewrite Hc. cbn [trimEnd]. rewrite Hc.
  reflexivity.
Qed.

Lemma sample_line_not_blank (a b c : Z) :
  (0 <? String.length (trim (sample_line (integer_sample (a, b, c)))))%nat
  = true.
Proof.
  rewrite sample_line_integers. apply trim_not_empty.
  - apply Z_toString_starts.
  - rewrite length_append. pose proof (Z_toString_length a). lia.
Qed.

Lemma non_blank_lines_integers (samples : list (Z * Z * Z)) :
  non_blank_lines
    (join (String newline "")
          (map sample_line (map integer_sample samples)))
  = map sample_line (map integer_sample samples).
Proof.
  unfold non_blank_lines.
  destruct samples as [|s0 rest]; [reflexivity|].
  rewrite split_join.
  - apply filter_all. rewrite map_map. apply Forall_map.
    apply Forall_forall. intros [[a b] c] _.
    rewrite <- trim_length_blank. apply sample_line_not_blank.
  - discriminate.
  - rewrite map_map. apply Forall_map.
    apply Forall_forall. intros [[a b] c] _. apply sample_line_chars.
Qed.

Lemma height_map_integers (samples : list (Z * Z * Z)) :
  let data := join (String newline "")
                   (map sample_line (map integer_sample samples)) in
  probePointCount (height_map data) = List.length samples
  /\ probedPositions (height_map data) = map integer_sample samples.
Proof.
  intro data. unfold height_map. cbn [probePointCount probedPositions].
  subst data. rewrite non_blank_lines_integers. split.
  - now rewrite !length_map.
  - rewrite !map_map. apply map_ext_in. intros [[a b] c] _. apply parsed_line_integers.
Qed.

Section FileProperties.

Variable json_stringify : string -> string.

Lemma load_read_fault (path : string) (w : world) :
  files (disk w) path = None ->
  loadProbedPositionsFromFile json_stringify path w
  = (Normal false,
     {| state := state w; emitted := emitted w;
        logged := logged w
                  ++ [error "Error loading probed positions from file:"];
        disk := disk w |}).
Proof.
  intro H.
  unfold loadProbedPositionsFromFile, bind at 1, try_catch, bind at 1,
    fs_readFileSync.
  rewrite H. reflexivity.
Qed.

Lemma load_read_ok (path data : string) (w : world) :
  files (disk w) path = Some data ->
  loadProbedPositionsFromFile json_stringify path w
  = (Normal true,
     {| state := height_map data; emitted := emitted w;
        logged := logged w
                  ++ [debug ("Probed positions successfully loaded from "
                             ++ json_stringify path)];
        disk := disk w |}).
Proof.
  intro H.
  unfold loadProbedPositionsFromFile, bind at 1, try_catch, bind at 1,
    fs_readFileSync.
  rewrite H.
  rewrite (filter_ext _ _ trim_length_blank).
  fold (non_blank_lines data). rewrite fold_load_line.
  reflexivity.
Qed.

Lemma save_ok (path : string) (w : world) :
  write_faults (disk w) path = false ->
  saveProbedPositionsToFile json_stringify path w
  = (Normal true,
     {| state := state w; emitted := emitted w;
        logged := logged w
                  ++ [debug ("Probed positions successfully saved to "
                             ++ json_stringify path)];
        disk := {| files := fun p =>
                     if String.eqb p path
                     then Some (join (String newline "")
                                     (map sample_line
                                          (probedPositions (state w))))
                     else files (disk w) p;
                   write_faults := write_faults (disk w) |} |}).
Proof.
  intro H.
  unfold saveProbedPositionsToFile, bind at 1, getState, bind at 1,
    try_catch, bind at 1, fs_writeFileSync.
  rewrite H. reflexivity.
Qed.

(** C10.  When the read of the file faults, [load] returns false and
    the LevelingState is what it was; when the read succeeds, it returns
    true and probePointCount, probedPositions, minZ and maxZ are all
    replaced by what the text of the file holds: the number of non-blank
    lines, the sample parsed from each, and the running minimum and
    maximum of their z. *)
Theorem load_fault_keeps_state_success_replaces_it :
  forall (path : string) (w : world),
    (files (disk w) path = None ->
     fst (loadProbedPositionsFromFile json_stringify path w) = Normal false
     /\ state (snd (loadProbedPositionsFromFile json_stringify path w))
        = state w)
    /\ (forall data : string,
           files (disk w) path = Some data ->
           fst (loadProbedPositionsFromFile json_stringify path w)
           = Normal true
           /\ state (snd (loadProbedPositionsFromFile json_stringify path w))
              = height_map data).
Proof.
  intros path w. split.
  - intro H. rewrite load_read_fault by exact H. now split.
  - intros data H. rewrite (load_read_ok path data) by exact H. now split.
Qed.

(** The round trip holds for every list of samples with integer
    coordinates: [save] in one session followed by [load] of the same file
    in any session, whatever that session holds, gives the samples back,
    in order, and counts them. *)
Lemma save_then_load_integers :
  forall (path : string) (w reader : world) (samples : list (Z * Z * Z)),
    Forall safe_sample samples ->
    probedPositions (state w) = map integer_sample samples ->
    write_faults (disk w) path = false ->
    let saved := saveProbedPositionsToFile json_stringify path w in
    files (disk reader) path = files (disk (snd saved)) path ->
    let loaded := loadProbedPositionsFromFile json_stringify path reader in
    fst saved = Normal true
    /\ fst loaded = Normal true
    /\ probedPositions (state (snd loaded)) = map integer_sample samples
    /\ probePointCount (state (snd loaded)) = List.length samples.
Proof.
  intros path w reader samples _ P F saved D loaded.
  set (data := join (String newline "")
                    (map sample_line (map integer_sample samples))).
  assert (R : files (disk reader) path = Some data).
  { rewrite D. subst saved. rewrite save_ok by exact F. cbn [snd disk files].
    now rewrite String.eqb_refl, P. }
  subst loaded. rewrite (load_read_ok path data _ R).
  destruct (height_map_integers samples) as [C S].
  split; [subst saved; now rewrite save_ok by exact F|].
  split; [reflexivity|]. cbn [snd state]. split; [exact S | exact C].
Qed.

(** C9.  A session that holds the samples {1,2,3} and {4,5,6} saves
    them as two lines of nine fields, the last six 0; loading that file,
    in the same session or in any other one that finds the file, whatever
    positions and aggregates that session holds before, gives exactly
    these two samples, x, y and z, in order, and nothing of the six other
    fields.  The same round trip gives back every list of samples with
    integer coordinates. *)
Theorem save_then_load_restores_samples :
  (forall (path : string) (w reader : world),
      probedPositions (state w) = [sample_123; sample_456] ->
      write_faults (disk w) path = false ->
      let saved := saveProbedPositionsToFile json_stringify path w in
      files (disk reader) path = files (disk (snd saved)) path ->
      let loaded := loadProbedPositionsFromFile json_stringify path reader in
      fst saved = Normal true
      /\ files (disk (snd saved)) path
         = Some ("1 2 3 0 0 0 0 0 0"
                 ++ String newline "4 5 6 0 0 0 0 0 0")%string
      /\ fst loaded = Normal true
      /\ probedPositions (state (snd loaded)) = [sample_123; sample_456]
      /\ probePointCount (state (snd loaded)) = 2%nat)
  /\ (forall (path : string) (w reader : world)
             (samples : list (Z * Z * Z)),
         Forall safe_sample samples ->
         probedPositions (state w) = map integer_sample samples ->
         write_faults (disk w) path = false ->
         let saved := saveProbedPositionsToFile json_stringify path w in
         files (disk reader) path = files (disk (snd saved)) path ->
         let loaded :=
           loadProbedPositionsFromFile json_stringify path reader in
         fst saved = Normal true
         /\ fst loaded = Normal true
         /\ probedPositions (state (snd loaded)) = map integer_sample samples
         /\ probePointCount (state (snd loaded)) = List.length samples).
Proof.
  split; [|exact save_then_load_integers].
  intros path w reader P F saved D loaded.
  assert (R : files (disk (snd saved)) path
              = Some ("1 2 3 0 0 0 0 0 0"
                      ++ String newline "4 5 6 0 0 0 0 0 0")%string).
  { subst saved. rewrite save_ok by exact F. cbn [snd disk files].
    now rewrite String.eqb_refl, P. }
  destruct (save_then_load_integers path w reader [(1, 2, 3); (4, 5, 6)]%Z)
    as (S & L & PP & C); [|exact P|exact F|exact D|].
  { repeat constructor; unfold safe_integer; simpl; lia. }
  repeat split; assumption.
Qed.


End FileProperties.

Lemma load_fault_keeps_state_success_replaces_it_witness :
  state (snd (loadProbedPositionsFromFile (fun p => p) "heights.txt"
                                          collecting))
  = state collecting
  /\ probePointCount
       (state (snd (loadProbedPositionsFromFile (fun p => p) "heights.txt"
                      (snd (saveProbedPositionsToFile (fun p => p)
                                                      "heights.txt"
                                                      probed_twice)))))
     = 2%nat.
Proof.
  split.
  - exact (proj2 (proj1 (load_fault_keeps_state_success_replaces_it
                           (fun p => p) "heights.txt" collecting) eq_refl)).
  - etransitivity.
    + exact (f_equal probePointCount
               (proj2 (proj2 (load_fault_keeps_state_success_replaces_it
                                (fun p => p) "heights.txt"
                                (snd (saveProbedPositionsToFile (fun p => p)
                                        "heights.txt" probed_twice)))
                             _ eq_refl))).
    + vm_compute. reflexivity.
Defined.

Lemma save_then_load_restores_samples_witness :
  probedPositions
    (state (snd (loadProbedPositionsFromFile (fun p => p) "heights.txt"
                   (snd (stop
                           (snd (saveProbedPositionsToFile (fun p => p)
                                   "heights.txt" probed_twice)))))))
  = [sample_123; sample_456]
  /\ probedPositions
       (state (snd (loadProbedPositionsFromFile (fun p => p) "heights.txt"
                      (with_state
                         (snd (saveProbedPositionsToFile (fun p => p)
                                 "heights.txt"
                                 (with_state idle
                                    {| probePointCount := 1;
                                       probedPositions :=
                                         [ProbedSample.make (num (-7))
                                                            (num 0) (num 12)];
                                       minZ := num 12;
                                       maxZ := num 12 |})))
                         (state collecting)))))
     = [ProbedSample.make (num (-7)) (num 0) (num 12)].
Proof.
  split.
  - exact (proj1 (proj2 (proj2 (proj2
             (proj1 (save_then_load_restores_samples (fun p => p))
                    "heights.txt" probed_twice
                    (snd (stop
                            (snd (saveProbedPositionsToFile (fun p => p)
                                    "heights.txt" probed_twice))))
                    eq_refl eq_refl eq_refl))))).
  - refine (proj1 (proj2 (proj2
             (proj2 (save_then_load_restores_samples (fun p => p))
                    "heights.txt"
                    (with_state idle
                       {| probePointCount := 1;
                          probedPositions :=
                            [ProbedSample.make (num (-7)) (num 0) (num 12)];
                          minZ := num 12;
                          maxZ := num 12 |})
                    (with_state
                       (snd (saveProbedPositionsToFile (fun p => p)
                               "heights.txt"
                               (with_state idle
                                  {| probePointCount := 1;
                                     probedPositions :=
                                       [ProbedSample.make (num (-7))
                                                          (num 0) (num 12)];
                                     minZ := num 12;
                                     maxZ := num 12 |})))
                       (state collecting))
                    [(-7, 0, 12)%Z] _ eq_refl eq_refl eq_refl)))).
    repeat constructor; unfold safe_integer; simpl; lia.
Defined.

(** ** The grid planner *)

Lemma js_lte_finite (a b : Q) :
  js_lte (Num (Finite a)) (Num (Finite b)) = Qle_bool a b.
Proof.
  unfold js_lte, js_le. simpl. now destruct (Qle_bool a b).
Qed.

Lemma Qle_bool_false (a b : Q) : Qle_bool a b = false <-> b < a.
Proof.
  split; intro H.
  - apply Qnot_le_lt. intro L. apply Qle_bool_iff in L. congruence.
  - destruct (Qle_bool a b) eqn:E; [|reflexivity].
    apply Qle_bool_iff in E. lra.
Qed.

Lemma Qfloor_unique (q : Q) (k : Z) :
  inject_Z k <= q -> q < inject_Z (k + 1) -> Qfloor q = k.
Proof.
  intros L U.
  pose proof (Qfloor_le q) as L'. pose proof (Qlt_floor q) as U'.
  assert (A : (k < Qfloor q + 1)%Z)
    by (rewrite Zlt_Qlt; eapply Qle_lt_trans; eassumption).
  assert (B : (Qfloor q < k + 1)%Z)
    by (rewrite Zlt_Qlt; eapply Qle_lt_trans; eassumption).
  lia.
Qed.

Lemma steps_beyond (from to step : Q) : to < from -> steps from to step = O.
Proof.
  intro H. unfold steps. now rewrite (proj2 (Qle_bool_false from to) H).
Qed.

Lemma steps_next (from to step : Q) :
  0 < step -> from <= to ->
  steps from to step = S (steps (Qred (from + step)) to step).
Proof.
  intros Hs Hle. unfold steps.
  rewrite (proj2 (Qle_bool_iff from to) Hle).
  pose proof (Qred_correct (from + step)) as R.
  set (t := (to - from) / step).
  assert (T : t * step == to - from) by (unfold t; field; lra).
  destruct (Qle_bool (Qred (from + step)) to) eqn:E.
  - apply Qle_bool_iff in E.
    set (t' := (to - Qred (from + step)) / step).
    assert (T' : t' * step == to - Qred (from + step))
      by (unfold t'; field; lra).
    assert (D : t == t' + 1).
    { apply (Qmult_inj_r _ _ step); [lra|]. rewrite T. lra. }
    assert (P : 0 <= t').
    { unfold t'. apply Qle_shift_div_l; lra. }
    assert (F0 : (0 <= Qfloor t')%Z).
    { change 0%Z with (Qfloor 0). now apply Qfloor_resp_le. }
    assert (F : Qfloor t = (Qfloor t' + 1)%Z).
    { apply Qfloor_unique.
      - rewrite inject_Z_plus. change (inject_Z 1) with 1.
        pose proof (Qfloor_le t'). lra.
      - pose proof (Qlt_floor t') as U.
        rewrite !inject_Z_plus. rewrite inject_Z_plus in U.
        change (inject_Z 1) with 1 in *. lra. }
    rewrite F. f_equal. rewrite Z2Nat.inj_add by lia. simpl. lia.
  - apply Qle_bool_false in E.
    assert (F : Qfloor t = 0%Z).
    { apply Qfloor_unique.
      - change (inject_Z 0) with 0. unfold t. apply Qle_shift_div_l; lra.
      - change (inject_Z (0 + 1)) with 1. unfold t.
        apply Qlt_shift_div_r; lra. }
    now rewrite F.
Qed.

Section Planner.

Variables eX dX eY dY : Q.



Lemma for_x_ends (y : value) :
  0 < dX ->
  forall (n : nat) (x : Q) (ps : list ProbePoint.t) (fuel : nat),
    steps x eX dX = n -> (n < fuel)%nat ->
    for_x fuel (Num (Finite eX)) (Num (Finite dX)) y (Num (Finite x)) ps
    = Some (ps ++ map (fun x' => ProbePoint.make x' y)
                      (axis n (Num (Finite x)) (Num (Finite dX)))).
Proof.
  intro Hd. induction n as [|n IH]; intros x ps fuel Hn Hf;
    (destruct fuel as [|fuel]; [lia|]); cbn [for_x];
    rewrite js_lte_finite.
  - destruct (Qle_bool x eX) eqn:E.
    + apply Qle_bool_iff in E. rewrite (steps_next x eX dX Hd E) in Hn.
      discriminate.
    + simpl. now rewrite app_nil_r.
  - destruct (Qle_bool x eX) eqn:E.
    + apply Qle_bool_iff in E. rewrite (steps_next x eX dX Hd E) in Hn.
      injection Hn as Hn.
      change (js_add (Num (Finite x)) (Num (Finite dX)))
        with (Num (Finite (Qred (x + dX)))).
      rewrite (IH _ _ fuel Hn) by lia.
      cbn [axis map]. rewrite <- app_assoc. reflexivity.
    + apply Qle_bool_false in E. rewrite steps_beyond in Hn by exact E.
      discriminate.
Qed.

Lemma for_y_ends (sX : Q) :
  0 < dX -> 0 < dY ->
  forall (m : nat) (y : Q) (ps : list ProbePoint.t) (fuel : nat),
    steps y eY dY = m -> (m + steps sX eX dX + 1 < fuel)%nat ->
    for_y fuel (Num (Finite sX)) (Num (Finite eX)) (Num (Finite dX))
          (Num (Finite eY)) (Num (Finite dY)) (Num (Finite y)) ps
    = Some (ps ++ grid (axis (steps sX eX dX) (Num (Finite sX))
                             (Num (Finite dX)))
                       (axis m (Num (Finite y)) (Num (Finite dY)))).
Proof.
  intros HdX HdY. induction m as [|m IH]; intros y ps fuel Hm Hf;
    (destruct fuel as [|fuel]; [lia|]); cbn [for_y];
    rewrite js_lte_finite.
  - destruct (Qle_bool y eY) eqn:E.
    + apply Qle_bool_iff in E. rewrite (steps_next y eY dY HdY E) in Hm.
      discriminate.
    + simpl. now rewrite app_nil_r.
  - destruct (Qle_bool y eY) eqn:E.
    + apply Qle_bool_iff in E. rewrite (steps_next y eY dY HdY E) in Hm.
      injection Hm as Hm.
      rewrite (for_x_ends _ HdX (steps sX eX dX)) by (reflexivity || lia).
      change (js_add (Num (Finite y)) (Num (Finite dY)))
        with (Num (Finite (Qred (y + dY)))).
      rewrite (IH _ _ fuel Hm) by lia.
      unfold grid. cbn [axis flat_map]. rewrite <- app_assoc. reflexivity.
    + apply Qle_bool_false in E. rewrite steps_beyond in Hm by exact E.
      discriminate.
Qed.

End Planner.




(** ** Calls in sequence *)

Lemma absorb_bound (s : LevelingState) (pos : ProbedSample.t) :
  (List.length (probedPositions s) <= probePointCount s)%nat ->
  (List.length (probedPositions (absorb s pos))
   <= probePointCount (absorb s pos))%nat.
Proof.
  intro H. rewrite absorb_count.
  destruct (le_dec (probePointCount s) (List.length (probedPositions s)))
    as [S|U].
  - unfold absorb. apply Nat.leb_le in S. now rewrite S.
  - rewrite absorb_positions by exact U. rewrite length_app. simpl. lia.
Qed.

Lemma height_map_saturated (data : string) :
  List.length (probedPositions (height_map data))
  = probePointCount (height_map data).
Proof. unfold height_map. simpl. apply length_map. Qed.

Section CallProperties.

Variable json_stringify : string -> string.

Lemma save_fault (path : string) (w : world) :
  write_faults (disk w) path = true ->
  saveProbedPositionsToFile json_stringify path w
  = (Normal false,
     {| state := state w; emitted := emitted w;
        logged := logged w
                  ++ [error "Error saving probed positions to file:"];
        disk := disk w |}).
Proof.
  intro H.
  unfold saveProbedPositionsToFile, bind at 1, getState, bind at 1,
    try_catch, bind at 1, fs_writeFileSync.
  rewrite H. reflexivity.
Qed.

Lemma save_keeps_state (path : string) (w : world) :
  state (snd (saveProbedPositionsToFile json_stringify path w)) = state w.
Proof.
  destruct (write_faults (disk w) path) eqn:F.
  - now rewrite save_fault.
  - now rewrite save_ok.
Qed.

Lemma load_state (path : string) (w : world) :
  state (snd (loadProbedPositionsFromFile json_stringify path w))
  = match files (disk w) path with
    | Some data => height_map data
    | None => state w
    end.
Proof.
  destruct (files (disk w) path) as [data|] eqn:F.
  - now rewrite (load_read_ok json_stringify path data).
  - now rewrite load_read_fault.
Qed.

Lemma perform_bound (w : world) (c : call) :
  (List.length (probedPositions (state w)) <= probePointCount (state w))%nat ->
  (List.length (probedPositions (state (perform json_stringify w c)))
   <= probePointCount (state (perform json_stringify w c)))%nat.
Proof.
  intro H. destruct c as [options | | [|pos|] | path | path]; cbn [perform].
  - rewrite start_result. simpl. lia.
  - simpl. lia.
  - exact H.
  - cbn [deliver]. rewrite probeUpdate_state. now apply absorb_bound.
  - exact H.
  - rewrite load_state. destruct (files (disk w) path); [|exact H].
    rewrite height_map_saturated. lia.
  - now rewrite save_keeps_state.
Qed.

(** X1.  Whatever calls are made on a new session, in whatever order,
    there are never more probed positions than probePointCount. *)
Theorem probed_positions_never_exceed_count :
  forall (d : file_system) (calls : list call),
    let s := state (perform_all json_stringify calls (created d)) in
    (List.length (probedPositions s) <= probePointCount s)%nat.
Proof.
  intros d calls. cbv zeta. unfold perform_all.
  assert (G : forall w,
             (List.length (probedPositions (state w))
              <= probePointCount (state w))%nat ->
             (List.length
                (probedPositions
                   (state (fold_left (perform json_stringify) calls w)))
              <= probePointCount
                   (state (fold_left (perform json_stringify) calls w)))%nat).
  { induction calls as [|c rest IH]; intros w H; [exact H|].
    cbn [fold_left]. apply IH. now apply perform_bound. }
  apply G. simpl. lia.
Qed.

(** ** Saving *)

(** X2.  [save] never changes the LevelingState.  When the write faults
    it returns false and the disk is as it was; otherwise it returns true,
    the file holds one line per probed position, in order, and every
    other file is as it was. *)
Theorem save_writes_one_file_or_nothing :
  forall (path : string) (w : world),
    let saved := saveProbedPositionsToFile json_stringify path w in
    state (snd saved) = state w
    /\ emitted (snd saved) = emitted w
    /\ (write_faults (disk w) path = true ->
        fst saved = Normal false /\ disk (snd saved) = disk w)
    /\ (write_faults (disk w) path = false ->
        fst saved = Normal true
        /\ files (disk (snd saved)) path
           = Some (join (String newline "")
                        (map sample_line (probedPositions (state w))))
        /\ (forall other, other <> path ->
            files (disk (snd saved)) other = files (disk w) other)).
Proof.
  intros path w saved. subst saved.
  split; [apply save_keeps_state|].
  destruct (write_faults (disk w) path) eqn:F.
  - rewrite save_fault by exact F. repeat split; discriminate.
  - rewrite save_ok by exact F. cbn [fst snd emitted disk files].
    repeat split; try discriminate.
    + now rewrite String.eqb_refl.
    + intros other N. apply String.eqb_neq in N. now rewrite N.
Qed.

End CallProperties.

(** ** The disk *)

Lemma keeps_disk_ret {A} (a : A) : keeps_disk (ret a).
Proof. intro w. reflexivity. Qed.

Lemma keeps_disk_throw {A} (e : exn) : keeps_disk (@throw A e).
Proof. intro w. reflexivity. Qed.

Lemma keeps_disk_bind {A B} (m : M A) (k : A -> M B) :
  keeps_disk m -> (forall a, keeps_disk (k a)) -> keeps_disk (bind m k).
Proof.
  intros Hm Hk w. unfold bind. specialize (Hm w).
  destruct (m w) as [[a|e] w']; simpl in *; [|exact Hm].
  now rewrite Hk.
Qed.

Lemma keeps_disk_try_catch {A} (body : M A) (handler : exn -> M A) :
  keeps_disk body -> (forall e, keeps_disk (handler e)) ->
  keeps_disk (try_catch body handler).
Proof.
  intros Hb Hh w. unfold try_catch. specialize (Hb w).
  destruct (body w) as [[a|e] w']; simpl in *; [exact Hb|].
  now rewrite Hh.
Qed.

Lemma keeps_disk_toFixed v f : keeps_disk (toFixed v f).
Proof. destruct v; intro w; reflexivity. Qed.

Lemma keeps_disk_getState : keeps_disk getState.
Proof. intro w. reflexivity. Qed.

Lemma keeps_disk_setState s : keeps_disk (setState s).
Proof. intro w. reflexivity. Qed.

Lemma keeps_disk_log_debug msg : keeps_disk (log_debug msg).
Proof. intro w. reflexivity. Qed.

Lemma keeps_disk_log_error msg : keeps_disk (log_error msg).
Proof. intro w. reflexivity. Qed.

Lemma keeps_disk_emit_probe_end : keeps_disk emit_probe_end.
Proof. intro w. reflexivity. Qed.

Lemma keeps_disk_readFileSync path : keeps_disk (fs_readFileSync path).
Proof. intro w. unfold fs_readFileSync. now destruct (files (disk w) path). Qed.

Create HintDb disk.

#[local] Hint Resolve keeps_disk_ret keeps_disk_throw keeps_disk_toFixed
  keeps_disk_getState keeps_disk_setState keeps_disk_log_debug
  keeps_disk_log_error keeps_disk_emit_probe_end keeps_disk_readFileSync
  : disk.

Ltac keeps_disk :=
  repeat first
    [ apply keeps_disk_bind; [|intro]
    | apply keeps_disk_try_catch; [|intro]
    | solve [auto with disk]
    | match goal with |- keeps_disk (if ?b then _ else _) => destruct b end ].

Lemma keeps_disk_probeUpdate pos : keeps_disk (probeUpdate pos).
Proof. unfold probeUpdate. keeps_disk. Qed.

Lemma keeps_disk_deliver e : keeps_disk (deliver e).
Proof.
  destruct e; cbn [deliver];
    [apply keeps_disk_ret | apply keeps_disk_probeUpdate | apply keeps_disk_ret].
Qed.

Lemma keeps_disk_load js path :
  keeps_disk (loadProbedPositionsFromFile js path).
Proof.
  unfold loadProbedPositionsFromFile.
  apply keeps_disk_bind; [|intro; keeps_disk].
  apply keeps_disk_try_catch; [|intro; keeps_disk].
  apply keeps_disk_bind; [auto with disk|]. intro data. cbv zeta.
  destruct (fold_left load_line _ _) as [[ps lo] hi]. keeps_disk.
Qed.

Section DiskProperties.

Variable json_stringify : string -> string.

Lemma perform_disk (w : world) (c : call) (path : string) :
  c <> Save path ->
  files (disk (perform json_stringify w c)) path = files (disk w) path
  /\ write_faults (disk (perform json_stringify w c)) = write_faults (disk w).
Proof.
  intro N. destruct c as [options | | e | p | p]; cbn [perform].
  - rewrite start_result. now split.
  - now split.
  - now rewrite keeps_disk_deliver.
  - now rewrite keeps_disk_load.
  - destruct (write_faults (disk w) p) eqn:F.
    + rewrite save_fault by exact F. now split.
    + rewrite save_ok by exact F. cbn [snd disk files write_faults].
      split; [|reflexivity].
      destruct (String.eqb_spec path p) as [->|]; [congruence|reflexivity].
Qed.

(** X3.  Whatever calls are made, a file that no [save] was pointed at
    reads as before: [start], [stop], the probe events and [load] never
    write, and [save] writes only the file it is given. *)
Theorem files_not_saved_are_untouched :
  forall (calls : list call) (w : world) (path : string),
    ~ In (Save path) calls ->
    files (disk (perform_all json_stringify calls w)) path
    = files (disk w) path.
Proof.
  unfold perform_all.
  induction calls as [|c rest IH]; intros w path N; [reflexivity|].
  cbn [fold_left]. rewrite IH by (intro H; apply N; now right).
  apply perform_disk. intros ->. apply N. now left.
Qed.

(** ** Loading *)

(** X4.  After a successful [load] the state is the height map of the
    file, and the session holds as many positions as it expects: every
    probe event delivered afterwards leaves state, emitted events, log and
    disk as they are. *)
Theorem loaded_map_ignores_probe_events :
  forall (path data : string) (w : world) (events : list event),
    files (disk w) path = Some data ->
    let loaded :=
      snd (loadProbedPositionsFromFile json_stringify path w) in
    state loaded = height_map data
    /\ deliver_all events loaded = loaded.
Proof.
  intros path data w events F loaded.
  assert (S : state loaded = height_map data).
  { subst loaded. now rewrite (load_read_ok json_stringify path data). }
  split; [exact S|].
  induction events as [|e rest IH]; [reflexivity|].
  cbn [deliver_all].
  replace (snd (deliver e loaded)) with loaded; [exact IH|].
  destruct e as [|pos|]; try reflexivity.
  cbn [deliver]. rewrite probeUpdate_saturated; [reflexivity|].
  unfold saturated. rewrite S, height_map_saturated. lia.
Qed.

Lemma filter_none {X} (f : X -> bool) (l : list X) :
  Forall (fun x => f x = false) l -> filter f l = [].
Proof.
  induction 1 as [|x l Hx _ IH]; simpl; [reflexivity|]. now rewrite Hx.
Qed.

(** X5.  Loading a file all of whose lines are blank (an empty file
    among them) gives an empty height map whose minZ is Infinity and
    whose maxZ is -Infinity; this is what a session without probed
    positions gets back from the file it saved. *)
Theorem load_of_blank_file :
  (forall (path data : string) (w : world),
      files (disk w) path = Some data ->
      Forall (fun line => blank line = true) (split newline data) ->
      loadProbedPositionsFromFile json_stringify path w
      = (Normal true,
         {| state := {| probePointCount := 0; probedPositions := [];
                        minZ := Num (Infinity false);
                        maxZ := Num (Infinity true) |};
            emitted := emitted w;
            logged := logged w
                      ++ [debug ("Probed positions successfully loaded from "
                                 ++ json_stringify path)];
            disk := disk w |}))
  /\ (forall (path : string) (w : world),
         probedPositions (state w) = [] ->
         write_faults (disk w) path = false ->
         state (snd (loadProbedPositionsFromFile json_stringify path
                       (snd (saveProbedPositionsToFile json_stringify path
                                                       w))))
         = {| probePointCount := 0; probedPositions := [];
              minZ := Num (Infinity false);
              maxZ := Num (Infinity true) |}).
Proof.
  assert (G : forall data,
             Forall (fun line => blank line = true) (split newline data) ->
             height_map data
             = {| probePointCount := 0; probedPositions := [];
                  minZ := Num (Infinity false);
                  maxZ := Num (Infinity true) |}).
  { intros data B. unfold height_map, non_blank_lines.
    rewrite filter_none; [reflexivity|].
    eapply Forall_impl; [|exact B]. intros line H. simpl in H. now rewrite H. }
  split.
  - intros path data w F B.
    rewrite (load_read_ok json_stringify path data) by exact F.
    now rewrite G.
  - intros path w P F.
    rewrite (load_read_ok json_stringify path "").
    + apply G. repeat constructor.
    + rewrite save_ok by exact F. cbn [snd disk files].
      now rewrite String.eqb_refl, P.
Qed.

End DiskProperties.

(** ** The height envelope *)

Lemma absorb_first (s : LevelingState) (pos : ProbedSample.t) :
  probedPositions s = [] -> (0 < probePointCount s)%nat ->
  absorb s pos
  = {| probePointCount := probePointCount s; probedPositions := [pos];
       minZ := ProbedSample.z pos; maxZ := ProbedSample.z pos |}.
Proof.
  intros P C. unfold absorb. rewrite P.
  replace (probePointCount s <=? List.length (@nil ProbedSample.t))%nat
    with false by (symmetry; apply Nat.leb_nle; simpl; lia).
  reflexivity.
Qed.

Lemma absorb_later (s : LevelingState) (pos : ProbedSample.t) :
  probedPositions s <> [] -> ~ saturated s ->
  absorb s pos
  = {| probePointCount := probePointCount s;
       probedPositions := probedPositions s ++ [pos];
       minZ := Math.min (minZ s) (ProbedSample.z pos);
       maxZ := Math.max (maxZ s) (ProbedSample.z pos) |}.
Proof.
  unfold saturated. intros P U. apply Nat.leb_nle in U.
  unfold absorb. rewrite U. destruct (probedPositions s); congruence.
Qed.

Lemma absorb_saturated (s : LevelingState) (pos : ProbedSample.t) :
  saturated s -> absorb s pos = s.
Proof.
  unfold saturated. intro H. apply Nat.leb_le in H.
  unfold absorb. now rewrite H.
Qed.

Lemma absorb_enveloped (s : LevelingState) (pos : ProbedSample.t) :
  finite_z pos ->
  probedPositions s = [] \/ enveloped s ->
  probedPositions (absorb s pos) = [] \/ enveloped (absorb s pos).
Proof.
  intros [q Hq] H.
  destruct (le_dec (probePointCount s) (List.length (probedPositions s)))
    as [S|U].
  - now rewrite absorb_saturated.
  - right. destruct (probedPositions s) as [|p0 ps] eqn:P.
    + rewrite absorb_first by (assumption || (simpl in U; lia)).
      exists q, q. cbn [minZ maxZ probedPositions].
      repeat split; try assumption.
      * intros p [<-|[]]. exists q. repeat split; [assumption|lra|lra].
      * exists pos. split; [now left | reflexivity].
      * exists pos. split; [now left | reflexivity].
    + destruct H as [H|H]; [discriminate|].
      destruct H as (lo & hi & Hlo & Hhi & All & (pl & Il & El) & (ph & Ih & Eh)).
      rewrite absorb_later
        by (rewrite ?P; (discriminate || (unfold saturated; now rewrite P))).
      cbn [minZ maxZ probedPositions].
      rewrite Hlo, Hhi, Hq.
      destruct (Math_min_finite lo q) as (lo' & -> & A1 & A2 & A3).
      destruct (Math_max_finite hi q) as (hi' & -> & B1 & B2 & B3).
      exists lo', hi'. cbn [minZ maxZ probedPositions].
      split; [reflexivity|]. split; [reflexivity|].
      split; [|split].
      * intros p Ip. apply in_app_or in Ip as [Ip|[<-|[]]].
        -- destruct (All p Ip) as (qp & Ep & L1 & L2).
           exists qp. repeat split; [assumption|lra|lra].
        -- exists q. repeat split; [assumption|lra|lra].
      * destruct A3 as [->| ->].
        -- exists pl. split; [apply in_or_app; now left|]. congruence.
        -- exists pos. split; [apply in_or_app; right; now left|exact Hq].
      * destruct B3 as [->| ->].
        -- exists ph. split; [apply in_or_app; now left|]. congruence.
        -- exists pos. split; [apply in_or_app; right; now left|exact Hq].
Qed.

(** X6.  In a session that starts without probed positions and is fed
    probe updates whose z is a finite number, as soon as a position is
    recorded minZ and maxZ are finite, every recorded z lies between
    them, and each of them is the z of a recorded position. *)
Theorem probe_updates_keep_the_envelope :
  forall (w : world) (samples : list ProbedSample.t),
    probedPositions (state w) = [] ->
    Forall finite_z samples ->
    let s := state (deliver_all (map probe_update samples) w) in
    probedPositions s <> [] -> enveloped s.
Proof.
  intros w samples P F.
  assert (G : forall s0,
             probedPositions s0 = [] \/ enveloped s0 ->
             probedPositions (fold_left absorb samples s0) = []
             \/ enveloped (fold_left absorb samples s0)).
  { induction F as [|pos rest Hpos _ IH]; intros s0 H; [exact H|].
    cbn [fold_left]. apply IH. now apply absorb_enveloped. }
  intros s N. subst s. rewrite deliver_all_updates_state in *.
  destruct (G (state w) (or_introl P)) as [E|E]; [congruence|exact E].
Qed.

Lemma Number_lessThan_NaN_l (y : number) : Number_lessThan NaN y = None.
Proof. reflexivity. Qed.

Lemma Math_min_NaN_l (v : value) : Math.min (Num NaN) v = Num NaN.
Proof. reflexivity. Qed.

Lemma Math_max_NaN_l (v : value) : Math.max (Num NaN) v = Num NaN.
Proof. reflexivity. Qed.

Lemma Math_min_NaN_r (v : value) : Math.min v (Num NaN) = Num NaN.
Proof. unfold Math.min. simpl. now rewrite Number_lessThan_NaN_r. Qed.

Lemma Math_max_NaN_r (v : value) : Math.max v (Num NaN) = Num NaN.
Proof. unfold Math.max. simpl. now rewrite Number_lessThan_NaN_r. Qed.

Lemma absorb_keeps_NaN (s : LevelingState) (pos : ProbedSample.t) :
  probedPositions s <> [] ->
  minZ s = Num NaN /\ maxZ s = Num NaN ->
  probedPositions (absorb s pos) <> []
  /\ minZ (absorb s pos) = Num NaN /\ maxZ (absorb s pos) = Num NaN.
Proof.
  intros P [Hlo Hhi].
  destruct (le_dec (probePointCount s) (List.length (probedPositions s)))
    as [S|U].
  - rewrite absorb_saturated by exact S. now repeat split.
  - rewrite absorb_later by assumption. cbn [minZ maxZ probedPositions].
    rewrite Hlo, Hhi. repeat split.
    destruct (probedPositions s); [congruence|discriminate].
Qed.

(** X7.  NaN is never undone by a probe update: once a session with a
    recorded position has minZ = maxZ = NaN (as after a sample without z),
    they stay NaN whatever probe updates follow. *)
Theorem NaN_aggregates_are_permanent :
  forall (w : world) (samples : list ProbedSample.t),
    probedPositions (state w) <> [] ->
    minZ (state w) = Num NaN -> maxZ (state w) = Num NaN ->
    let s := state (deliver_all (map probe_update samples) w) in
    minZ s = Num NaN /\ maxZ s = Num NaN.
Proof.
  intros w samples P Hlo Hhi s. subst s.
  rewrite deliver_all_updates_state.
  assert (G : forall s0,
             probedPositions s0 <> [] ->
             minZ s0 = Num NaN /\ maxZ s0 = Num NaN ->
             minZ (fold_left absorb samples s0) = Num NaN
             /\ maxZ (fold_left absorb samples s0) = Num NaN).
  { induction samples as [|pos rest IH]; intros s0 P0 H0; [exact H0|].
    cbn [fold_left].
    destruct (absorb_keeps_NaN s0 pos P0 H0) as (P1 & H1).
    now apply IH. }
  now apply G.
Qed.

(** ** The aggregates of a loaded file *)

Lemma running_min_NaN (samples : list ProbedSample.t) :
  running_min samples (Num NaN) = Num NaN.
Proof.
  unfold running_min. induction samples as [|p rest IH]; [reflexivity|].
  cbn [fold_left]. now rewrite Math_min_NaN_r.
Qed.

Lemma running_max_NaN (samples : list ProbedSample.t) :
  running_max samples (Num NaN) = Num NaN.
Proof.
  unfold running_max. induction samples as [|p rest IH]; [reflexivity|].
  cbn [fold_left]. now rewrite Math_max_NaN_r.
Qed.

Lemma running_poisoned (samples : list ProbedSample.t) :
  (exists p, In p samples /\ ProbedSample.z p = undefined) ->
  forall lo hi,
    running_min samples lo = Num NaN /\ running_max samples hi = Num NaN.
Proof.
  induction samples as [|p rest IH]; intros (p0 & I & E) lo hi;
    [destruct I|].
  destruct I as [->|I].
  - change (running_min (p0 :: rest) lo)
      with (running_min rest (Math.min (ProbedSample.z p0) lo)).
    change (running_max (p0 :: rest) hi)
      with (running_max rest (Math.max (ProbedSample.z p0) hi)).
    rewrite E. change (Math.min undefined lo) with (Num NaN).
    change (Math.max undefined hi) with (Num NaN).
    now rewrite running_min_NaN, running_max_NaN.
  - apply IH. now exists p0.
Qed.

Lemma enveloped_snoc (n n' : nat) (seen : list ProbedSample.t)
      (lo hi lo' hi' q : Q) (pos : ProbedSample.t) :
  enveloped {| probePointCount := n; probedPositions := seen;
               minZ := Num (Finite lo); maxZ := Num (Finite hi) |} ->
  ProbedSample.z pos = Num (Finite q) ->
  lo' <= lo -> lo' <= q -> lo' = lo \/ lo' = q ->
  hi <= hi' -> q <= hi' -> hi' = hi \/ hi' = q ->
  enveloped {| probePointCount := n'; probedPositions := seen ++ [pos];
               minZ := Num (Finite lo'); maxZ := Num (Finite hi') |}.
Proof.
  intros (l & h & Hl & Hh & All & (pl & Il & El) & (ph & Ih & Eh))
         Hq A1 A2 A3 B1 B2 B3.
  cbn [minZ maxZ probedPositions] in *.
  injection Hl as <-. injection Hh as <-.
  exists lo', hi'. cbn [minZ maxZ probedPositions].
  split; [reflexivity|]. split; [reflexivity|]. split; [|split].
  - intros p Ip. apply in_app_or in Ip as [Ip|[<-|[]]].
    + destruct (All p Ip) as (qp & Ep & L1 & L2).
      exists qp. repeat split; [assumption|lra|lra].
    + exists q. repeat split; [assumption|lra|lra].
  - destruct A3 as [->| ->].
    + exists pl. split; [apply in_or_app; now left|exact El].
    + exists pos. split; [apply in_or_app; right; now left|exact Hq].
  - destruct B3 as [->| ->].
    + exists ph. split; [apply in_or_app; now left|exact Eh].
    + exists pos. split; [apply in_or_app; right; now left|exact Hq].
Qed.

Lemma running_enveloped (rest : list ProbedSample.t) :
  Forall finite_z rest ->
  forall (n : nat) (seen : list ProbedSample.t) (lo hi : Q),
    enveloped {| probePointCount := n; probedPositions := seen;
                 minZ := Num (Finite lo); maxZ := Num (Finite hi) |} ->
    enveloped {| probePointCount := n;
                 probedPositions := seen ++ rest;
                 minZ := running_min rest (Num (Finite lo));
                 maxZ := running_max rest (Num (Finite hi)) |}.
Proof.
  induction 1 as [|p rest [q Hq] _ IH]; intros n seen lo hi E.
  - now rewrite app_nil_r.
  - change (running_min (p :: rest) (Num (Finite lo)))
      with (running_min rest (Math.min (ProbedSample.z p) (Num (Finite lo)))).
    change (running_max (p :: rest) (Num (Finite hi)))
      with (running_max rest (Math.max (ProbedSample.z p) (Num (Finite hi)))).
    rewrite Hq.
    destruct (Math_min_finite q lo) as (lo' & -> & A1 & A2 & A3).
    destruct (Math_max_finite q hi) as (hi' & -> & B1 & B2 & B3).
    replace (seen ++ p :: rest) with ((seen ++ [p]) ++ rest)
      by (now rewrite <- app_assoc).
    apply IH.
    apply (enveloped_snoc n n seen lo hi lo' hi' q p E Hq);
      try assumption; tauto.
Qed.

Section LoadedAggregates.

Variable json_stringify : string -> string.

(** X8.  One line without a third token poisons the aggregates of the
    whole file: after the load minZ and maxZ are both NaN, wherever the
    line stands. *)
Theorem load_with_missing_z_gives_NaN :
  forall (path data : string) (w : world),
    files (disk w) path = Some data ->
    (exists line, In line (non_blank_lines data)
                  /\ ProbedSample.z (parsed_line line) = undefined) ->
    let s := state (snd (loadProbedPositionsFromFile json_stringify path w)) in
    minZ s = Num NaN /\ maxZ s = Num NaN.
Proof.
  intros path data w F (line & I & E) s. subst s.
  rewrite (load_read_ok json_stringify path data) by exact F.
  cbn [snd state]. unfold height_map. cbn [minZ maxZ].
  apply running_poisoned. exists (parsed_line line).
  split; [now apply in_map | exact E].
Qed.

(** X9.  When every non-blank line of the file has a finite third token
    and there is at least one such line, the loaded minZ and maxZ are
    finite, every loaded z lies between them, and each of them is the z
    of a loaded position. *)
Theorem load_with_finite_z_gives_the_envelope :
  forall (path data : string) (w : world),
    files (disk w) path = Some data ->
    non_blank_lines data <> [] ->
    Forall (fun line => finite_z (parsed_line line)) (non_blank_lines data) ->
    enveloped
      (state (snd (loadProbedPositionsFromFile json_stringify path w))).
Proof.
  intros path data w F N A.
  rewrite (load_read_ok json_stringify path data) by exact F.
  cbn [snd state]. unfold height_map.
  destruct (non_blank_lines data) as [|line rest]; [congruence|].
  inversion A as [|? ? [q Hq] Hrest]; subst.
  cbn [map].
  change (running_min (parsed_line line :: map parsed_line rest)
                      (Num (Infinity false)))
    with (running_min (map parsed_line rest)
            (Math.min (ProbedSample.z (parsed_line line))
                      (Num (Infinity false)))).
  change (running_max (parsed_line line :: map parsed_line rest)
                      (Num (Infinity true)))
    with (running_max (map parsed_line rest)
            (Math.max (ProbedSample.z (parsed_line line))
                      (Num (Infinity true)))).
  rewrite Hq.
  change (Math.min (Num (Finite q)) (Num (Infinity false)))
    with (Num (Finite q)).
  change (Math.max (Num (Finite q)) (Num (Infinity true)))
    with (Num (Finite q)).
  change (parsed_line line :: map parsed_line rest)
    with ([parsed_line line] ++ map parsed_line rest).
  apply running_enveloped.
  - now apply Forall_map.
  - exists q, q. cbn [minZ maxZ probedPositions].
    repeat split.
    + intros p [<-|[]]. exists q. repeat split; [assumption|lra|lra].
    + exists (parsed_line line). split; [now left|exact Hq].
    + exists (parsed_line line). split; [now left|exact Hq].
Qed.

End LoadedAggregates.

(** ** The events a session emits *)

Lemma deliver_updates_emitted (samples : list ProbedSample.t) :
  Forall (fun pos => numeric pos = true) samples ->
  forall w,
    emitted (deliver_all (map probe_update samples) w)
    = emitted w
      ++ repeat probe_end
           (Nat.min (List.length samples)
                    (probePointCount (state w)
                     - List.length (probedPositions (state w)))).
Proof.
  induction 1 as [|pos rest Hpos _ IH]; intro w.
  - simpl. now rewrite app_nil_r.
  - cbn [map deliver_all deliver]. rewrite IH.
    destruct (le_dec (probePointCount (state w))
                     (List.length (probedPositions (state w)))) as [S|U].
    + rewrite probeUpdate_saturated by exact S. cbn [snd].
      replace (probePointCount (state w)
               - List.length (probedPositions (state w)))%nat with O by lia.
      now rewrite !Nat.min_0_r.
    + rewrite probeUpdate_state, absorb_count,
        (absorb_positions _ _ U), length_app.
      rewrite probeUpdate_accepting by exact U.
      assert (Hz : is_number (ProbedSample.z pos) = true).
      { unfold numeric in Hpos. now apply andb_prop in Hpos. }
      destruct (absorb_numeric (state w) pos U Hz) as [A B].
      destruct (report_numeric pos (with_state w (absorb (state w) pos))
                               Hpos A B) as [_ E].
      rewrite E. cbn [with_state emitted List.length].
      rewrite <- app_assoc. f_equal.
      replace (probePointCount (state w)
               - List.length (probedPositions (state w)))%nat
        with (S (probePointCount (state w)
                 - (List.length (probedPositions (state w)) + 1)))%nat
        by lia.
      reflexivity.
Qed.

(** X10.  After [start] with N positions, M probe updates with numeric
    coordinates make the session emit probe_end exactly min(M, N) times:
    once for each update it accepts, never for one it ignores. *)
Theorem probe_end_once_per_accepted_update :
  forall (w : world) (options : start_options)
         (ps : list ProbePoint.t) (samples : list ProbedSample.t),
    positions options = Some ps ->
    Forall (fun pos => numeric pos = true) samples ->
    emitted (deliver_all (map probe_update samples)
                         (snd (start options None w)))
    = emitted w
      ++ repeat probe_end (Nat.min (List.length samples) (List.length ps)).
Proof.
  intros w options ps samples P F.
  rewrite deliver_updates_emitted by exact F.
  rewrite start_result, P. cbn [snd with_state state emitted
                                  probePointCount probedPositions List.length].
  now rewrite Nat.sub_0_r.
Qed.

(** ** Lines with fewer or more than three tokens *)

Lemma consumed_all (s : string) : consumed s "" = s.
Proof.
  rewrite <- (append_empty_r s) at 1. apply consumed_prefix.
Qed.

Lemma exec_last_token (z : Z) :
  exec regex (Z_toString z)
  = Some {| match_start := Z_toString z; match_end := "";
            match_groups := [(2%nat, ""); (1%nat, Z_toString z)] |}.
Proof.
  destruct (Z_toString_shape z) as (ds & E & L & D & _).
  set (tok := Z_toString z) in *.
  rewrite exec_unfold.
  change regex
    with (Seq (Opt (Group 1 number_pattern))
              (Group 2 (Alt (Plus (Class is_space)) EndOfInput))).
  rewrite run_Seq, run_Opt, run_Group.
  assert (R : run number_pattern tok []
                (fun s' cs' =>
                   run (Group 2 (Alt (Plus (Class is_space)) EndOfInput))
                       s' ((1%nat, consumed tok s') :: cs')
                       (fun s'' cs'' => Some (s'', cs'')))
              = Some ("", [(2%nat, ""); (1%nat, tok)])).
  { rewrite <- (append_empty_r tok) at 1. rewrite E, append_assoc.
    apply run_number_pattern; try assumption; try reflexivity.
    rewrite consumed_all. reflexivity. }
  now rewrite R.
Qed.

Lemma integers_line_cons (z z' : Z) (zs : list Z) :
  integers_line (z :: z' :: zs)
  = (Z_toString z ++ String " " (integers_line (z' :: zs)))%string.
Proof. reflexivity. Qed.

Lemma integers_line_starts (zs : list Z) :
  starts_with is_space (integers_line zs) = false.
Proof.
  destruct zs as [|z [|z' zs]]; [reflexivity| |].
  - change (integers_line [z]) with (Z_toString z).
    rewrite <- (append_empty_r (Z_toString z)). apply Z_toString_starts.
  - rewrite integers_line_cons. apply Z_toString_starts.
Qed.

Lemma values_of_integers (zs : list Z) :
  forall (z : Z) (fuel : nat),
    (List.length zs + 2 <= fuel)%nat ->
    map match_value
        (matchAll_from fuel regex (Some (integers_line (z :: zs))))
    = map num (z :: zs) ++ [undefined].
Proof.
  induction zs as [|z' zs IH]; intros z fuel Hf.
  - destruct fuel as [|[|fuel]]; try (simpl in Hf; lia).
    change (integers_line [z]) with (Z_toString z).
    cbn [matchAll_from]. rewrite exec_last_token.
    cbn [match_end match_start].
    pose proof (Z_toString_length z) as L.
    replace (String.length "" <? String.length (Z_toString z))%nat
      with true by (symmetry; apply Nat.ltb_lt; exact L).
    change (exec regex "")
      with (Some {| match_start := ""; match_end := "";
                    match_groups := [(2%nat, "")] |}).
    cbn [match_end match_start String.length Nat.ltb Nat.leb map app].
    replace (matchAll_from fuel regex None) with (@nil match_result)
      by now destruct fuel.
    cbn [map]. f_equal.
    unfold match_value, match_get. cbn [capture match_groups Nat.eqb].
    apply Nat.ltb_lt in L. rewrite L.
    now rewrite Number_of_string_Z_toString.
  - destruct fuel as [|fuel]; [simpl in Hf; lia|].
    rewrite integers_line_cons.
    rewrite matchAll_from_token by apply integers_line_starts.
    cbn [map app]. rewrite match_value_token.
    rewrite IH by (simpl in Hf; lia). reflexivity.
Qed.

Lemma values_of_line (zs : list Z) :
  map match_value (matchAll (integers_line zs) regex)
  = map num zs ++ [undefined].
Proof.
  destruct zs as [|z zs]; [reflexivity|].
  rewrite <- (matchAll_fuel _ regex
                (String.length (integers_line (z :: zs)) + 2
                 + (List.length zs + 2))) by lia.
  apply values_of_integers. lia.
Qed.

Lemma nth_field (zs : list Z) (i : nat) (tail : list value) :
  nth i (map num zs ++ undefined :: tail) undefined
  = match nth_error zs i with
    | Some z => num z
    | None => nth (i - List.length zs) (undefined :: tail) undefined
    end.
Proof.
  revert i. induction zs as [|z zs IH]; intro i.
  - simpl. rewrite Nat.sub_0_r. now destruct i.
  - destruct i as [|i]; [reflexivity|]. simpl. apply IH.
Qed.

(** X11.  A line of integers of magnitude at most 2^53 (which
    [Number] reads without rounding), separated by single spaces, gives
    x, y and z from its first three tokens; when it has fewer, the fields
    that have no token are absent, and tokens after the third are
    dropped. *)
Theorem short_lines_leave_fields_absent :
  forall zs : list Z,
    Forall safe_integer zs ->
    parsed_line (integers_line zs)
    = ProbedSample.make (field zs 0) (field zs 1) (field zs 2).
Proof.
  intros zs _. unfold parsed_line. rewrite values_of_line.
  unfold field. rewrite !nth_field.
  destruct zs as [|a [|b [|c zs]]]; reflexivity.
Qed.

Lemma space_is_not_digit (c : ascii) : is_space c = true -> is_digit c = false.
Proof.
  unfold is_space, is_digit. intro H.
  apply orb_prop in H as [H|H]; [apply orb_prop in H as [H|H]|].
  - apply andb_prop in H as [_ H]. apply Nat.leb_le in H.
    apply andb_false_iff. left. apply Nat.leb_nle. lia.
  - apply Nat.eqb_eq in H. rewrite H. reflexivity.
  - apply Nat.eqb_eq in H. rewrite H. reflexivity.
Qed.

Lemma space_is_not (a c : ascii) :
  is_space c = true -> is_space a = false -> is_char a c = false.
Proof.
  intros Hc Ha. unfold is_char.
  destruct (Ascii.eqb_spec a c) as [->|]; [congruence|reflexivity].
Qed.

Lemma run_number_pattern_at_space {A}
      (k : string -> captures -> option A) c rest cs :
  is_space c = true ->
  run number_pattern (String c rest) cs k = None.
Proof.
  intro Hc. unfold number_pattern.
  rewrite run_Seq, run_Opt, run_Class_cons.
  rewrite (space_is_not "-"%char c Hc eq_refl).
  rewrite run_Seq, run_Star.
  rewrite (iterate_Class is_digit _ "" _ (String c rest))
    by (reflexivity || (simpl; lia) || (cbn [starts_with];
                                        now apply space_is_not_digit)).
  cbn [longest_first].
  apply run_fraction_stops; cbn [starts_with].
  - now apply space_is_not_digit.
  - now apply space_is_not.
Qed.

Lemma exec_leading_space (c : ascii) (rest : string) :
  is_space c = true -> starts_with is_space rest = false ->
  exec regex (String c rest)
  = Some {| match_start := String c rest; match_end := rest;
            match_groups := [(2%nat, String c "")] |}.
Proof.
  intros Hc Hr. rewrite exec_unfold.
  change regex
    with (Seq (Opt (Group 1 number_pattern))
              (Group 2 (Alt (Plus (Class is_space)) EndOfInput))).
  rewrite run_Seq, run_Opt, run_Group.
  rewrite run_number_pattern_at_space by exact Hc.
  rewrite run_Group, run_Alt, run_Plus, run_Class_cons, Hc.
  rewrite (iterate_Class is_space _ "" _ rest)
    by (reflexivity || assumption || (simpl; lia)).
  cbn [longest_first].
  change (consumed (String c rest) rest)
    with (consumed (String c "" ++ rest)%string rest).
  now rewrite consumed_prefix.
Qed.

(** X12.  White space in front of the first token counts as a field of
    its own: on a line that starts with one white-space character and goes
    on with integers of magnitude at most 2^53, x is absent, y is the
    first integer and z the second. *)
Theorem leading_space_shifts_the_fields :
  forall (c : ascii) (zs : list Z),
    is_space c = true ->
    Forall safe_integer zs ->
    parsed_line (String c (integers_line zs))
    = ProbedSample.make undefined (field zs 0) (field zs 1).
Proof.
  intros c zs Hc _. unfold parsed_line.
  set (line := integers_line zs).
  rewrite <- (matchAll_fuel (String c line) regex
                (S (String.length line + 2
                    + (String.length (String c line) + 2))))
    by (simpl; lia).
  cbn [matchAll_from].
  rewrite exec_leading_space by (exact Hc || apply integers_line_starts).
  cbn [match_end match_start].
  replace (String.length line <? String.length (String c line))%nat
    with true by (symmetry; apply Nat.ltb_lt; simpl; lia).
  rewrite matchAll_fuel by lia.
  cbn [map]. subst line. rewrite values_of_line.
  change (match_value _) with undefined.
  unfold field.
  change (undefined :: map num zs ++ [undefined])
    with ([undefined] ++ (map num zs ++ [undefined])).
  cbn [nth app]. rewrite !nth_field.
  destruct zs as [|a [|b zs]]; reflexivity.
Qed.

(** ** A probing run saved and loaded *)

Lemma Qle_bool_inject_Z (a b : Z) :
  Qle_bool (inject_Z a) (inject_Z b) = (a <=? b)%Z.
Proof. unfold Qle_bool, inject_Z. simpl. now rewrite !Z.mul_1_r. Qed.

Lemma Math_min_num (a b : Z) : Math.min (num a) (num b) = num (Z.min a b).
Proof.
  unfold Math.min, num. cbn [ToNumber Number_lessThan].
  rewrite Qle_bool_inject_Z.
  destruct (b <=? a)%Z eqn:E; cbn [negb].
  - apply Z.leb_le in E. now rewrite Z.min_r.
  - apply Z.leb_gt in E. now rewrite Z.min_l by lia.
Qed.

Lemma Math_max_num (a b : Z) : Math.max (num a) (num b) = num (Z.max a b).
Proof.
  unfold Math.max, num. cbn [ToNumber Number_lessThan].
  rewrite Qle_bool_inject_Z.
  destruct (b <=? a)%Z eqn:E; cbn [negb].
  - apply Z.leb_le in E. now rewrite Z.max_l.
  - apply Z.leb_gt in E. now rewrite Z.max_r by lia.
Qed.

Lemma integer_sample_z (xyz : Z * Z * Z) :
  ProbedSample.z (integer_sample xyz) = num (third xyz).
Proof. now destruct xyz as [[a b] c]. Qed.

Lemma fold_absorb_integers (zs : list (Z * Z * Z)) :
  forall (s : LevelingState) (lo hi : Z),
    probedPositions s <> [] ->
    minZ s = num lo -> maxZ s = num hi ->
    (List.length (probedPositions s) + List.length zs
     <= probePointCount s)%nat ->
    minZ (fold_left absorb (map integer_sample zs) s)
    = num (least (map third zs) lo)
    /\ maxZ (fold_left absorb (map integer_sample zs) s)
       = num (greatest (map third zs) hi).
Proof.
  induction zs as [|z0 zs IH]; intros s lo hi P Hlo Hhi B.
  - now split.
  - cbn [map fold_left]. simpl in B.
    assert (U : ~ saturated s) by (unfold saturated; lia).
    rewrite (absorb_later s _ P U).
    unfold least, greatest. cbn [map fold_left].
    apply IH; cbn [probedPositions minZ maxZ probePointCount].
    + destruct (probedPositions s); [congruence|discriminate].
    + now rewrite Hlo, integer_sample_z, Math_min_num.
    + now rewrite Hhi, integer_sample_z, Math_max_num.
    + rewrite length_app. simpl. lia.
Qed.

Lemma running_integers (zs : list (Z * Z * Z)) :
  forall lo hi : Z,
    running_min (map integer_sample zs) (num lo)
    = num (least (map third zs) lo)
    /\ running_max (map integer_sample zs) (num hi)
       = num (greatest (map third zs) hi).
Proof.
  unfold running_min, running_max, least, greatest.
  induction zs as [|z0 zs IH]; intros lo hi; [now split|].
  cbn [map fold_left].
  rewrite integer_sample_z, Math_min_num, Math_max_num.
  rewrite (Z.min_comm (third z0) lo), (Z.max_comm (third z0) hi).
  apply IH.
Qed.

Lemma deliver_all_disk (events : list event) (w : world) :
  disk (deliver_all events w) = disk w.
Proof.
  revert w. induction events as [|e rest IH]; intro w; [reflexivity|].
  cbn [deliver_all]. rewrite IH. apply keeps_disk_deliver.
Qed.

Section RunSavedAndLoaded.

Variable json_stringify : string -> string.

(** X13.  A run that was started for N positions and has recorded
    K >= 1 samples with integer coordinates (of magnitude at most 2^53,
    which a double holds exactly) is [save]d; a [load] of that file, in
    the same session or in any other one that finds the file, whatever
    that session holds before, gives the positions, the minZ and the maxZ
    of the run, and probePointCount K where the run had N. *)
Theorem saved_run_comes_back_with_its_aggregates :
  forall (w reader : world) (options : start_options)
         (ps : list ProbePoint.t)
         (z0 : Z * Z * Z) (zs : list (Z * Z * Z)) (path : string),
    positions options = Some ps ->
    Forall safe_sample (z0 :: zs) ->
    (List.length (z0 :: zs) <= List.length ps)%nat ->
    write_faults (disk w) path = false ->
    let run :=
      deliver_all (map probe_update (map integer_sample (z0 :: zs)))
                  (snd (start options None w)) in
    files (disk reader) path
    = files (disk (snd (saveProbedPositionsToFile json_stringify path run)))
            path ->
    let back :=
      snd (loadProbedPositionsFromFile json_stringify path reader) in
    probePointCount (state run) = List.length ps
    /\ probedPositions (state back) = probedPositions (state run)
    /\ minZ (state back) = minZ (state run)
    /\ maxZ (state back) = maxZ (state run)
    /\ probePointCount (state back) = List.length (z0 :: zs).
Proof.
  intros w reader options ps z0 zs path P _ L F run E back.
  set (s0 := {| probePointCount := List.length ps; probedPositions := [];
                minZ := num 0; maxZ := num 0 |}).
  assert (R : state run = fold_left absorb (map integer_sample (z0 :: zs)) s0).
  { subst run. now rewrite deliver_all_updates_state, start_result, P. }
  destruct (fold_absorb_fills (map integer_sample (z0 :: zs)) s0)
    as [C PP]; [rewrite length_map; simpl in *; lia|].
  rewrite <- R in C, PP. cbn [s0 probedPositions probePointCount app] in C, PP.
  assert (A : minZ (state run) = num (least (map third zs) (third z0))
              /\ maxZ (state run) = num (greatest (map third zs) (third z0))).
  { rewrite R. cbn [map fold_left].
    rewrite (absorb_first s0) by (reflexivity || (simpl in *; lia)).
    apply fold_absorb_integers;
      cbn [probedPositions minZ maxZ probePointCount s0];
      try apply integer_sample_z; try discriminate.
    simpl in *. lia. }
  assert (D : write_faults (disk run) path = false).
  { subst run. rewrite deliver_all_disk, start_result. exact F. }
  set (data := join (String newline "")
                    (map sample_line (map integer_sample (z0 :: zs)))).
  assert (RD : files (disk reader) path = Some data).
  { rewrite E, save_ok by exact D. cbn [snd disk files].
    now rewrite String.eqb_refl, PP. }
  assert (B : state back = height_map data).
  { subst back. now rewrite (load_read_ok json_stringify path data _ RD). }
  destruct (height_map_integers (z0 :: zs)) as [HC HP]. fold data in HC, HP.
  assert (M : minZ (height_map data)
              = running_min (probedPositions (height_map data))
                            (Num (Infinity false))
              /\ maxZ (height_map data)
                 = running_max (probedPositions (height_map data))
                               (Num (Infinity true))) by now split.
  rewrite HP in M. cbn [map] in M.
  change (running_min (integer_sample z0 :: map integer_sample zs)
                      (Num (Infinity false)))
    with (running_min (map integer_sample zs)
            (Math.min (ProbedSample.z (integer_sample z0))
                      (Num (Infinity false)))) in M.
  change (running_max (integer_sample z0 :: map integer_sample zs)
                      (Num (Infinity true)))
    with (running_max (map integer_sample zs)
            (Math.max (ProbedSample.z (integer_sample z0))
                      (Num (Infinity true)))) in M.
  rewrite integer_sample_z in M.
  change (Math.min (num (third z0)) (Num (Infinity false)))
    with (num (third z0)) in M.
  change (Math.max (num (third z0)) (Num (Infinity true)))
    with (num (third z0)) in M.
  destruct (running_integers zs (third z0) (third z0)) as [M1 M2].
  rewrite M1, M2 in M. destruct M as [Mlo Mhi]. destruct A as [Alo Ahi].
  rewrite B. split; [exact C|]. split; [now rewrite HP, PP|].
  split; [now rewrite Mlo, Alo|]. split; [now rewrite Mhi, Ahi|exact HC].
Qed.

End RunSavedAndLoaded.

(** ** The points of the grid *)

Lemma axis_length (n : nat) (from step : value) :
  List.length (axis n from step) = n.
Proof.
  revert from. induction n as [|n IH]; intro from; simpl; [reflexivity|].
  now rewrite IH.
Qed.

Lemma grid_length (xs ys : list value) :
  List.length (grid xs ys) = (List.length xs * List.length ys)%nat.
Proof.
  unfold grid. induction ys as [|y ys IH]; simpl; [lia|].
  rewrite length_app, length_map, IH. lia.
Qed.

Lemma axis_bounds (e d : Q) :
  0 < d ->
  forall (n : nat) (x : Q),
    steps x e d = n ->
    Forall (fun v => exists q, v = Num (Finite q) /\ x <= q /\ q <= e)
           (axis n (Num (Finite x)) (Num (Finite d))).
Proof.
  intro Hd. induction n as [|n IH]; intros x Hn; [constructor|].
  destruct (Qlt_le_dec e x) as [B|L].
  - rewrite steps_beyond in Hn by exact B. discriminate.
  - rewrite (steps_next x e d Hd L) in Hn. injection Hn as Hn.
    cbn [axis]. constructor.
    + exists x. repeat split; [lra|exact L].
    + change (js_add (Num (Finite x)) (Num (Finite d)))
        with (Num (Finite (Qred (x + d)))).
      eapply Forall_impl; [|exact (IH _ Hn)].
      intros v (q & -> & L1 & L2). exists q.
      pose proof (Qred_correct (x + d)) as R.
      repeat split; [|exact L2]. rewrite R in L1. lra.
Qed.

Lemma js_add_num (a d : Z) : js_add (num a) (num d) = num (a + d).
Proof.
  change (js_add (num a) (num d))
    with (Num (Finite (Qred (inject_Z a + inject_Z d)))).
  unfold num. now rewrite <- inject_Z_plus, Qred_inject_Z.
Qed.

Lemma axis_integral (d : Z) (n : nat) :
  forall a : Z,
    Forall (fun v => exists z : Z, v = num z) (axis n (num a) (num d)).
Proof.
  induction n as [|n IH]; intro a; cbn [axis]; constructor.
  - now exists a.
  - rewrite js_add_num. apply IH.
Qed.

Lemma axis_integer_bounds (a e d : Z) (v : value) :
  (0 < d)%Z ->
  In v (axis (steps (inject_Z a) (inject_Z e) (inject_Z d))
             (num a) (num d)) ->
  exists z : Z, v = num z /\ (a <= z <= e)%Z.
Proof.
  intros Hd I.
  assert (Qd : 0 < inject_Z d).
  { change 0 with (inject_Z 0). now rewrite <- Zlt_Qlt. }
  pose proof (axis_bounds (inject_Z e) (inject_Z d) Qd _ (inject_Z a)
                          eq_refl) as B.
  pose proof (axis_integral d (steps (inject_Z a) (inject_Z e) (inject_Z d))
                            a) as Z.
  rewrite Forall_forall in B, Z.
  destruct (B v I) as (q & E & L1 & L2). destruct (Z v I) as (z & E').
  exists z. split; [exact E'|].
  rewrite E' in E. unfold num in E. injection E as <-.
  split; now rewrite Zle_Qle.
Qed.

(** X14.  With integer bounds and positive integer steps whose sums stay
    within the integers a double holds exactly, the grid has one point
    for every pair of an x value and a y value, so
    (floor((endX - startX) / stepX) + 1) times
    (floor((endY - startY) / stepY) + 1) points when the bounds are in
    order and none otherwise, and every point has integer coordinates
    within the bounds. *)
Theorem grid_points_are_counted_and_within_bounds :
  forall (sX eX dX sY eY dY : Z) (fuel : nat),
    (0 < dX)%Z -> (0 < dY)%Z ->
    exact_axis sX eX dX -> exact_axis sY eY dY ->
    let nX := steps (inject_Z sX) (inject_Z eX) (inject_Z dX) in
    let nY := steps (inject_Z sY) (inject_Z eY) (inject_Z dY) in
    (nY + nX + 1 < fuel)%nat ->
    exists ps : list ProbePoint.t,
      getProbeXYPositions fuel (integer_options sX eX dX sY eY dY) = Some ps
      /\ List.length ps = (nX * nY)%nat
      /\ (forall p, In p ps ->
          exists a b : Z,
            ProbePoint.x p = num a /\ ProbePoint.y p = num b
            /\ (sX <= a <= eX)%Z /\ (sY <= b <= eY)%Z)
      /\ ((eX < sX)%Z \/ (eY < sY)%Z -> ps = []).
Proof.
  intros sX eX dX sY eY dY fuel HdX HdY _ _ nX nY Hf.
  assert (QdX : 0 < inject_Z dX).
  { change 0 with (inject_Z 0). now rewrite <- Zlt_Qlt. }
  assert (QdY : 0 < inject_Z dY).
  { change 0 with (inject_Z 0). now rewrite <- Zlt_Qlt. }
  exists (grid (axis nX (num sX) (num dX)) (axis nY (num sY) (num dY))).
  split; [|split; [|split]].
  - unfold getProbeXYPositions, integer_options, num.
    cbn [startX endX stepX startY endY stepY default].
    now rewrite (for_y_ends (inject_Z eX) (inject_Z dX) (inject_Z eY)
                            (inject_Z dY) (inject_Z sX) QdX QdY nY).
  - now rewrite grid_length, !axis_length.
  - intros p I. unfold grid in I. apply in_flat_map in I as (y & Iy & I).
    apply in_map_iff in I as (x & <- & Ix).
    destruct (axis_integer_bounds sX eX dX x HdX Ix) as (a & -> & BX).
    destruct (axis_integer_bounds sY eY dY y HdY Iy) as (b & -> & BY).
    exists a, b. now repeat split.
  - intros [B|B].
    + assert (E : nX = 0%nat).
      { apply steps_beyond. now rewrite <- Zlt_Qlt. }
      rewrite E. unfold grid. cbn [axis map].
      induction (axis _ _ _); [reflexivity|assumption].
    + assert (E : nY = 0%nat).
      { apply steps_beyond. now rewrite <- Zlt_Qlt. }
      now rewrite E.
Qed.

(** ** The instructions of a run *)

Lemma probe_point_block (f pf sz ez : value) (position : ProbePoint.t)
      (index : nat) (acc : list string) :
  probe_point f pf sz ez position index acc
  = acc ++ point_block f pf sz ez index position.
Proof.
  unfold probe_point, point_block.
  destruct index as [|index]; cbn [Nat.eqb];
    rewrite <- app_assoc; reflexivity.
Qed.

Lemma forEach_position_blocks (f pf sz ez : value) (ps : list ProbePoint.t) :
  forall (index : nat) (acc : list string),
    forEach_position f pf sz ez ps index acc
    = acc ++ point_blocks f pf sz ez index ps.
Proof.
  induction ps as [|p ps IH]; intros index acc; cbn [forEach_position
                                                     point_blocks].
  - now rewrite app_nil_r.
  - now rewrite IH, probe_point_block, <- app_assoc.
Qed.

Lemma point_block_length (f pf sz ez : value) (index : nat)
      (p : ProbePoint.t) :
  List.length (point_block f pf sz ez index p)
  = match index with O => 6%nat | S _ => 5%nat end.
Proof. now destruct index. Qed.

Lemma later_blocks_length (f pf sz ez : value) (ps : list ProbePoint.t) :
  forall index,
    List.length (point_blocks f pf sz ez (S index) ps)
    = (5 * List.length ps)%nat.
Proof.
  induction ps as [|p ps IH]; intro index; [reflexivity|].
  cbn [point_blocks]. rewrite length_app, point_block_length, IH.
  simpl. lia.
Qed.

Lemma point_block_head (f pf sz ez : value) (index : nat)
      (p : ProbePoint.t) (tail : list string) :
  nth 0 (point_block f pf sz ez index p ++ tail) ""
  = ("(Auto Leveling: probing point " ++ nat_toString index ++ ")")%string.
Proof. now destruct index. Qed.

Lemma later_markers (f pf sz ez : value) (ps : list ProbePoint.t) :
  forall index i,
    (i < List.length ps)%nat ->
    nth (5 * i) (point_blocks f pf sz ez (S index) ps) ""
    = ("(Auto Leveling: probing point " ++ nat_toString (S index + i)
       ++ ")")%string.
Proof.
  induction ps as [|p ps IH]; intros index i Hi; [simpl in Hi; lia|].
  cbn [point_blocks]. destruct i as [|i].
  - rewrite Nat.mul_0_r, Nat.add_0_r. apply point_block_head.
  - rewrite app_nth2 by (rewrite point_block_length; lia).
    rewrite point_block_length.
    replace (5 * S i - 5)%nat with (5 * i)%nat by lia.
    rewrite IH by (simpl in Hi; lia).
    now replace (S (S index) + i)%nat with (S index + S i)%nat by lia.
Qed.

(** X15.  For any number of positions, [start] returns the instructions
    of the points one after the other: six for the first point (with the
    retract before the move and the probe at half the probe feedrate),
    five for every later one; so 5 N + 1 instructions for N >= 1 positions
    and none for no position, with the marker of point i at index 0 for
    i = 0 and at index 5 i + 1 otherwise. *)
Theorem start_instructions_point_by_point :
  forall (w : world) (options : start_options) (ps : list ProbePoint.t),
    positions options = Some ps ->
    let instructions :=
      point_blocks (feedrate options)
                   (default (num 20) (probeFeedrate options))
                   (default (num 0) (startZ options))
                   (default (num 0) (endZ options)) 0 ps in
    fst (start options None w) = Normal instructions
    /\ List.length instructions
       = match ps with
         | [] => 0%nat
         | _ :: _ => (5 * List.length ps + 1)%nat
         end
    /\ (forall i, (i < List.length ps)%nat ->
        nth (marker_index i) instructions ""
        = ("(Auto Leveling: probing point " ++ nat_toString i
           ++ ")")%string).
Proof.
  intros w options ps P instructions. subst instructions.
  split; [|split].
  - rewrite start_result, P. cbn [fst].
    now rewrite forEach_position_blocks.
  - destruct ps as [|p ps]; [reflexivity|].
    cbn [point_blocks]. rewrite length_app, point_block_length,
      later_blocks_length. simpl. lia.
  - intros i Hi. destruct ps as [|p ps]; [simpl in Hi; lia|].
    cbn [point_blocks]. destruct i as [|i].
    + apply point_block_head.
    + unfold marker_index.
      rewrite app_nth2 by (rewrite point_block_length; lia).
      rewrite point_block_length.
      replace (5 * S i + 1 - 6)%nat with (5 * i)%nat by lia.
      rewrite later_markers by (simpl in Hi; lia).
      reflexivity.
Qed.

(** ** Parameters of the command synthesizer *)

Lemma present_tokens_app (p q : object) :
  present_tokens (p ++ q) = present_tokens p ++ present_tokens q.
Proof.
  induction p as [|[letter v] p IH]; [reflexivity|].
  cbn [app present_tokens]. destruct v; rewrite IH; reflexivity.
Qed.

Lemma append_tokens_app (line : string) (ts us : list string) :
  append_tokens line (ts ++ us) = append_tokens (append_tokens line ts) us.
Proof.
  revert line. induction ts as [|t ts IH]; intro line; [reflexivity|].
  cbn [app append_tokens]. apply IH.
Qed.

(** X16.  A parameter whose value is null or undefined can be put
    anywhere among the parameters without changing the instruction, the
    instruction always begins with the command, and parameters given
    later only add to the end of the instruction. *)
Theorem gcode_is_built_left_to_right :
  forall (cmd : string) (p q : object),
    (forall letter v, _isNil v = true ->
       gcode cmd (Some (p ++ (letter, v) :: q)) = gcode cmd (Some (p ++ q)))
    /\ (exists rest : string,
           gcode cmd (Some p) = (cmd ++ rest)%string)
    /\ (exists more : string,
           gcode cmd (Some (p ++ q)) = (gcode cmd (Some p) ++ more)%string).
Proof.
  intros cmd p q. split; [|split].
  - intros letter v N. rewrite !gcode_Some. unfold emit.
    rewrite !present_tokens_app. cbn [present_tokens].
    now destruct v.
  - rewrite gcode_Some. unfold emit. rewrite append_tokens_concat.
    eexists. reflexivity.
  - rewrite !gcode_Some. unfold emit.
    rewrite present_tokens_app, append_tokens_app.
    rewrite (append_tokens_concat (append_tokens cmd (present_tokens p))).
    eexists. reflexivity.
Qed.

(** ** Steps and bounds that are not numbers *)

Lemma for_y_stops (fuel : nat) (sx ex dx ey dy y : value)
      (ps : list ProbePoint.t) :
  js_lte y ey = false -> for_y (S fuel) sx ex dx ey dy y ps = Some ps.
Proof. intro H. cbn [for_y]. now rewrite H. Qed.

Lemma js_lte_NaN_l (v : value) : js_lte (Num NaN) v = false.
Proof.
  unfold js_lte, js_le. cbn [ToNumber]. now rewrite Number_lessThan_NaN_r.
Qed.

Lemma js_lte_NaN_r (v : value) : js_lte v (Num NaN) = false.
Proof. reflexivity. Qed.

(** X17.  A step that is NaN does not make the planner loop: with both
    steps NaN and the bounds in order, the grid is the single point
    (startX, startY).  A bound of the y axis that is NaN gives the empty
    grid at once. *)
Theorem NaN_steps_give_one_point :
  forall (sX eX sY eY : Q) (fuel : nat),
    sX <= eX -> sY <= eY -> (3 <= fuel)%nat ->
    getProbeXYPositions fuel
      {| startX := Num (Finite sX); endX := Num (Finite eX);
         stepX := Num NaN;
         startY := Num (Finite sY); endY := Num (Finite eY);
         stepY := Num NaN |}
    = Some [ProbePoint.make (Num (Finite sX)) (Num (Finite sY))]
    /\ (forall options,
           startY options = Num NaN \/ endY options = Num NaN ->
           getProbeXYPositions fuel options = Some []).
Proof.
  intros sX eX sY eY fuel HX HY Hf.
  destruct fuel as [|[|[|fuel]]]; try lia. split.
  - unfold getProbeXYPositions.
    cbn [startX endX stepX startY endY stepY default for_y for_x].
    rewrite !js_lte_finite.
    rewrite (proj2 (Qle_bool_iff sY eY) HY), (proj2 (Qle_bool_iff sX eX) HX).
    reflexivity.
  - intros options [E|E]; unfold getProbeXYPositions; rewrite E;
      cbn [default]; apply for_y_stops.
    + apply js_lte_NaN_l.
    + apply js_lte_NaN_r.
Qed.

(** ** Options left out of [start] *)

Lemma gcode_move (x y : number) :
  gcode "G0" (Some [("X", Num x); ("Y", Num y); ("F", undefined)])
  = ("G0 X" ++ Number_toString x ++ " Y" ++ Number_toString y)%string.
Proof.
  rewrite gcode_Some. unfold emit. cbn [present_tokens append_tokens].
  rewrite !append_assoc. reflexivity.
Qed.

(** X18.  Without feedrate, probeFeedrate, startZ and endZ, the moves
    carry no F word, the retracts and probes go to Z0, and the probe
    feedrate is the default 20, halved to 10 for the first point.  A
    probeFeedrate of null is no default case: the first probe gets F0 and
    the later ones no F word at all. *)
Theorem start_without_options :
  forall (w : world) (x0 y0 x1 y1 : number),
    fst (start {| positions := Some [ProbePoint.make (Num x0) (Num y0);
                                     ProbePoint.make (Num x1) (Num y1)];
                  feedrate := undefined; probeFeedrate := undefined;
                  startZ := undefined; endZ := undefined |} None w)
    = Normal
        ["(Auto Leveling: probing point 0)";
         "G90";
         "G0 Z0";
         "G0 X" ++ Number_toString x0 ++ " Y" ++ Number_toString y0;
         "G38.2 Z0 F10";
         "G0 Z0";
         "(Auto Leveling: probing point 1)";
         "G90";
         "G0 X" ++ Number_toString x1 ++ " Y" ++ Number_toString y1;
         "G38.2 Z0 F20";
         "G0 Z0"]%string
    /\ fst (start {| positions := Some [ProbePoint.make (Num x0) (Num y0);
                                        ProbePoint.make (Num x1) (Num y1)];
                     feedrate := undefined; probeFeedrate := null;
                     startZ := undefined; endZ := undefined |} None w)
       = Normal
           ["(Auto Leveling: probing point 0)";
            "G90";
            "G0 Z0";
            "G0 X" ++ Number_toString x0 ++ " Y" ++ Number_toString y0;
            "G38.2 Z0 F0";
            "G0 Z0";
            "(Auto Leveling: probing point 1)";
            "G90";
            "G0 X" ++ Number_toString x1 ++ " Y" ++ Number_toString y1;
            "G38.2 Z0";
            "G0 Z0"]%string.
Proof.
  intros w x0 y0 x1 y1.
  split; rewrite start_result; cbn [fst positions];
    cbn [forEach_position]; unfold probe_point;
    cbn [Nat.eqb ProbePoint.x ProbePoint.y app feedrate probeFeedrate startZ
         endZ default];
    rewrite !gcode_move; reflexivity.
Qed.

(** ** Probe updates that throw *)

Lemma report_not_numeric (pos : ProbedSample.t) (w : world) :
  numeric pos = false -> report pos w = (Throw TypeError, w).
Proof.
  destruct pos as [px py pz]. unfold numeric. cbn [ProbedSample.x
    ProbedSample.y ProbedSample.z]. intro N.
  unfold report, bind, getState.
  destruct w as [s em lg dk].
  destruct px, py, pz; try discriminate; reflexivity.
Qed.

(** X19.  A probe update with a coordinate that is not a number, in a
    session that still expects samples, is recorded all the same: the
    position is appended and probePointCount is unchanged, but the handler
    throws a TypeError, emits no probe_end and logs nothing. *)
Theorem throwing_update_is_still_recorded :
  forall (w : world) (pos : ProbedSample.t),
    (List.length (probedPositions (state w))
     < probePointCount (state w))%nat ->
    numeric pos = false ->
    let after := deliver (probe_update pos) w in
    fst after = Throw TypeError
    /\ probedPositions (state (snd after))
       = probedPositions (state w) ++ [pos]
    /\ probePointCount (state (snd after)) = probePointCount (state w)
    /\ emitted (snd after) = emitted w
    /\ logged (snd after) = logged w.
Proof.
  intros w pos H N after. subst after. cbn [deliver].
  assert (U : ~ saturated (state w)) by (unfold saturated; lia).
  rewrite probeUpdate_accepting by exact U.
  rewrite report_not_numeric by exact N. cbn [fst snd with_state state
                                              emitted logged].
  repeat split.
  - now apply absorb_positions.
  - apply absorb_count.
Qed.

(** ** The lines of a saved file *)

Lemma digit_char_is_digit (k : Z) :
  (0 <= k <= 9)%Z -> is_digit (digit_char k) = true.
Proof.
  intro H.
  assert (C : (k = 0 \/ k = 1 \/ k = 2 \/ k = 3 \/ k = 4 \/ k = 5
               \/ k = 6 \/ k = 7 \/ k = 8 \/ k = 9)%Z) by lia.
  repeat (destruct C as [->|C]; [reflexivity | idtac]). now subst.
Qed.

Lemma fraction_digits_chars (fuel : nat) :
  forall r d : Z,
    (0 <= r < d)%Z ->
    all_chars is_digit (fraction_digits fuel r d) = true.
Proof.
  induction fuel as [|fuel IH]; intros r d H; [reflexivity | idtac].
  cbn [fraction_digits]. destruct (r =? 0)%Z; [reflexivity | idtac].
  cbn [all_chars]. rewrite digit_char_is_digit, IH; [reflexivity | | ].
  - apply Z.mod_pos_bound. lia.
  - split.
    + apply Z.div_pos; lia.
    + assert (r * 10 / d < 10)%Z; [ | lia].
      apply Z.div_lt_upper_bound; lia.
Qed.

Lemma Z_toString_not_space (z : Z) :
  all_chars not_space (Z_toString z) = true.
Proof.
  destruct (Z_toString_shape z) as (ds & E & _ & D & _). rewrite E.
  rewrite all_chars_append. apply andb_true_intro. split.
  - now destruct (z <? 0)%Z.
  - eapply all_chars_impl; [apply digit_not_space | exact D].
Qed.

Lemma ToString_not_space (v : value) :
  all_chars not_space (ToString v) = true.
Proof.
  destruct v as [| |[|[|]|q]]; try reflexivity.
  cbn [ToString Number_toString]. unfold Q_toString.
  rewrite !all_chars_append, Z_toString_not_space.
  apply andb_true_intro. split; [now destruct (_ <? 0)%Z | idtac].
  cbn [andb]. destruct (_ =? 0)%Z; [reflexivity | idtac].
  rewrite all_chars_append. cbn [all_chars andb].
  eapply all_chars_impl; [apply digit_not_space | idtac].
  apply fraction_digits_chars. apply Z.mod_pos_bound. lia.
Qed.

Lemma count_char_append (c : ascii) (a b : string) :
  count_char c (a ++ b)%string = (count_char c a + count_char c b)%nat.
Proof.
  induction a as [|d a IH]; [reflexivity | idtac].
  cbn [append count_char]. rewrite IH. lia.
Qed.

Lemma count_space_none (c : ascii) (s : string) :
  is_space c = true -> all_chars not_space s = true -> count_char c s = O.
Proof.
  intro Hc. induction s as [|d s IH]; [reflexivity | idtac].
  cbn [all_chars count_char]. intro H. apply andb_prop in H as [Hd Hs].
  rewrite (IH Hs).
  destruct (Ascii.eqb_spec d c) as [->|]; [|reflexivity].
  unfold not_space in Hd. rewrite Hc in Hd. discriminate.
Qed.

Lemma not_space_other_than_newline (s : string) :
  all_chars not_space s = true -> all_chars (other_than newline) s = true.
Proof.
  apply all_chars_impl. intros c H. unfold other_than.
  destruct (Ascii.eqb_spec c newline) as [->|]; [discriminate H|reflexivity].
Qed.

Lemma sample_line_fields (sample : ProbedSample.t) :
  count_char " " (sample_line sample) = 8%nat
  /\ all_chars (other_than newline) (sample_line sample) = true
  /\ blank (sample_line sample) = false.
Proof.
  unfold sample_line. cbv zeta. split; [ | split].
  - repeat (rewrite count_char_append
            || rewrite (count_space_none " "%char (ToString _) eq_refl
                          (ToString_not_space _))).
    reflexivity.
  - repeat (rewrite all_chars_append
            || rewrite (not_space_other_than_newline _
                          (ToString_not_space _))).
    reflexivity.
  - unfold blank. rewrite !all_chars_append.
    change (all_chars is_space (ToString (num 0))) with false.
    now rewrite !andb_false_r.
Qed.

Section SavedLines.

Variable json_stringify : string -> string.

(** X20.  Whatever the probed positions hold (numbers, NaN, absent
    values), the file [save] writes has exactly one line per position, in
    order, and every line has nine fields separated by eight single
    spaces; [load] of that file, in the same session or in any other one
    that finds the file, whatever that session holds before, sets
    probePointCount, and the number of its positions, to the number of
    positions saved. *)
Theorem saved_file_has_a_line_of_nine_fields_per_position :
  forall (path : string) (w reader : world),
    write_faults (disk w) path = false ->
    let saved := snd (saveProbedPositionsToFile json_stringify path w) in
    let lines := map sample_line (probedPositions (state w)) in
    files (disk reader) path = files (disk saved) path ->
    let loaded :=
      snd (loadProbedPositionsFromFile json_stringify path reader) in
    files (disk saved) path = Some (join (String newline "") lines)
    /\ (probedPositions (state w) <> [] ->
        split newline (join (String newline "") lines) = lines)
    /\ Forall (fun line => count_char " " line = 8%nat) lines
    /\ probePointCount (state loaded)
       = List.length (probedPositions (state w))
    /\ List.length (probedPositions (state loaded))
       = List.length (probedPositions (state w)).
Proof.
  intros path w reader F saved lines E loaded.
  assert (R : files (disk saved) path = Some (join (String newline "") lines)).
  { subst saved. rewrite save_ok by exact F. cbn [snd disk files].
    now rewrite String.eqb_refl. }
  assert (S : probedPositions (state w) <> [] ->
              split newline (join (String newline "") lines) = lines).
  { intro N. apply split_join.
    - subst lines. destruct (probedPositions (state w)); [congruence|discriminate].
    - subst lines. apply Forall_map. apply Forall_forall. intros p _.
      apply sample_line_fields. }
  assert (C : probePointCount (height_map (join (String newline "") lines))
              = List.length (probedPositions (state w))).
  { unfold height_map, non_blank_lines. cbn [probePointCount].
    destruct (probedPositions (state w)) as [|p ps] eqn:P.
    - reflexivity.
    - rewrite S by discriminate. rewrite filter_all.
      + subst lines. now rewrite length_map.
      + subst lines. apply Forall_map. apply Forall_forall. intros q _.
        now rewrite (proj2 (proj2 (sample_line_fields q))). }
  split; [exact R | idtac]. split; [exact S | idtac]. split.
  - subst lines. apply Forall_map. apply Forall_forall. intros p _.
    apply sample_line_fields.
  - rewrite <- E in R. subst loaded.
    rewrite (load_read_ok json_stringify path _ _ R). cbn [snd state].
    split; [exact C|]. now rewrite height_map_saturated.
Qed.

End SavedLines.

(** ** The properties at concrete sessions *)

Lemma save_writes_one_file_or_nothing_witness :
  fst (saveProbedPositionsToFile (fun p => p) "heights.txt" (created faulty))
  = Normal false
  /\ fst (saveProbedPositionsToFile (fun p => p) "heights.txt" probed_twice)
     = Normal true.
Proof.
  split.
  - exact (proj1 (proj1 (proj2 (proj2
             (save_writes_one_file_or_nothing (fun p => p) "heights.txt"
                                              (created faulty))))
                        eq_refl)).
  - exact (proj1 (proj2 (proj2 (proj2
             (save_writes_one_file_or_nothing (fun p => p) "heights.txt"
                                              probed_twice)))
                        eq_refl)).
Defined.

Lemma files_not_saved_are_untouched_witness :
  files (disk (perform_all (fun p => p)
                 [Save "heights.txt"; Load "heights.txt"; Stop]
                 probed_twice))
        "other.txt"
  = files (disk probed_twice) "other.txt".
Proof.
  apply (files_not_saved_are_untouched (fun p => p)).
  intros [H|[H|[H|[]]]]; discriminate H.
Defined.

Lemma loaded_map_ignores_probe_events_witness :
  deliver_all [probe_update sample_456; probe_end]
    (snd (loadProbedPositionsFromFile (fun p => p) "heights.txt"
            (created (one_file "heights.txt" "1 2 3"))))
  = snd (loadProbedPositionsFromFile (fun p => p) "heights.txt"
           (created (one_file "heights.txt" "1 2 3"))).
Proof.
  exact (proj2 (loaded_map_ignores_probe_events (fun p => p)
                  "heights.txt" "1 2 3"
                  (created (one_file "heights.txt" "1 2 3"))
                  [probe_update sample_456; probe_end] eq_refl)).
Defined.

Lemma load_of_blank_file_witness :
  fst (loadProbedPositionsFromFile (fun p => p) "heights.txt"
         (created (one_file "heights.txt" " ")))
  = Normal true
  /\ minZ (state (snd (loadProbedPositionsFromFile (fun p => p) "heights.txt"
                         (created (one_file "heights.txt" " ")))))
     = Num (Infinity false).
Proof.
  assert (B : Forall (fun line => blank line = true) (split newline " ")).
  { repeat constructor. }
  split.
  - exact (f_equal fst
             (proj1 (load_of_blank_file (fun p => p)) "heights.txt" " "
                    (created (one_file "heights.txt" " ")) eq_refl B)).
  - exact (f_equal (fun r => minZ (state (snd r)))
             (proj1 (load_of_blank_file (fun p => p)) "heights.txt" " "
                    (created (one_file "heights.txt" " ")) eq_refl B)).
Defined.

Lemma probe_updates_keep_the_envelope_witness :
  enveloped (state run_of_two).
Proof.
  apply (probe_updates_keep_the_envelope started [sample_123; sample_456]).
  - reflexivity.
  - repeat constructor; eexists; reflexivity.
  - vm_compute. discriminate.
Defined.

Lemma NaN_aggregates_are_permanent_witness :
  minZ (state (deliver_all (map probe_update [sample_123; sample_456])
                           poisoned))
  = Num NaN
  /\ maxZ (state (deliver_all (map probe_update [sample_123; sample_456])
                              poisoned))
     = Num NaN.
Proof.
  apply (NaN_aggregates_are_permanent poisoned [sample_123; sample_456]).
  - discriminate.
  - reflexivity.
  - reflexivity.
Defined.

Lemma load_with_missing_z_gives_NaN_witness :
  minZ (state (snd (loadProbedPositionsFromFile (fun p => p) "heights.txt"
                      (created (one_file "heights.txt"
                                  (String.concat (String newline "")
                                     ["1 2 3"; "4 5"; "7 8 9"]))))))
  = Num NaN.
Proof.
  refine (proj1 (load_with_missing_z_gives_NaN (fun p => p)
                   "heights.txt"
                   (String.concat (String newline "")
                      ["1 2 3"; "4 5"; "7 8 9"])
                   (created (one_file "heights.txt"
                               (String.concat (String newline "")
                                  ["1 2 3"; "4 5"; "7 8 9"])))
                   eq_refl _)).
  exists "4 5". split.
  - vm_compute. right. left. reflexivity.
  - vm_compute. reflexivity.
Defined.

Lemma load_with_finite_z_gives_the_envelope_witness :
  enveloped
    (state (snd (loadProbedPositionsFromFile (fun p => p) "heights.txt"
                   (created (one_file "heights.txt"
                               (String.concat (String newline "")
                                  ["1 2 3"; "4 5 6"])))))).
Proof.
  refine (load_with_finite_z_gives_the_envelope (fun p => p)
            "heights.txt"
            (String.concat (String newline "") ["1 2 3"; "4 5 6"])
            (created (one_file "heights.txt"
                        (String.concat (String newline "")
                           ["1 2 3"; "4 5 6"])))
            eq_refl _ _).
  - vm_compute. discriminate.
  - apply Forall_forall. intros line H. vm_compute in H.
    destruct H as [<-|[<-|[]]]; eexists; vm_compute; reflexivity.
Defined.

Lemma probe_end_once_per_accepted_update_witness :
  emitted (deliver_all
             (map probe_update
                  [sample_123; sample_456; sample_123; sample_456])
             started)
  = [probe_end; probe_end; probe_end].
Proof.
  refine (probe_end_once_per_accepted_update idle three_points _
            [sample_123; sample_456; sample_123; sample_456] eq_refl _).
  repeat constructor.
Defined.

Lemma leading_space_shifts_the_fields_witness :
  parsed_line (String " " (integers_line [1; 2; 3]%Z))
  = ProbedSample.make undefined (num 1) (num 2).
Proof.
  refine (leading_space_shifts_the_fields " "%char [1; 2; 3]%Z eq_refl _).
  repeat constructor; unfold safe_integer; simpl; lia.
Defined.

Lemma short_lines_leave_fields_absent_witness :
  parsed_line (integers_line [-7; 12]%Z)
  = ProbedSample.make (num (-7)) (num 12) undefined
  /\ parsed_line (integers_line [1; 2; 3; 4]%Z)
     = ProbedSample.make (num 1) (num 2) (num 3).
Proof.
  split.
  - refine (short_lines_leave_fields_absent [-7; 12]%Z _).
    repeat constructor; unfold safe_integer; simpl; lia.
  - refine (short_lines_leave_fields_absent [1; 2; 3; 4]%Z _).
    repeat constructor; unfold safe_integer; simpl; lia.
Defined.

Lemma saved_run_comes_back_with_its_aggregates_witness :
  probePointCount (state run_of_two) = 3%nat
  /\ probePointCount
       (state (snd (loadProbedPositionsFromFile (fun p => p) "heights.txt"
                      (snd (stop
                              (snd (saveProbedPositionsToFile (fun p => p)
                                      "heights.txt" run_of_two)))))))
     = 2%nat
  /\ maxZ (state (snd (loadProbedPositionsFromFile (fun p => p) "heights.txt"
                         (snd (stop
                                 (snd (saveProbedPositionsToFile
                                         (fun p => p) "heights.txt"
                                         run_of_two)))))))
     = maxZ (state run_of_two).
Proof.
  assert (S : Forall safe_sample [(1, 2, 3); (4, 5, 6)]%Z).
  { repeat constructor; unfold safe_integer; simpl; lia. }
  assert (L : (List.length [(1, 2, 3); (4, 5, 6)]%Z <= 3)%nat).
  { simpl. lia. }
  pose proof (saved_run_comes_back_with_its_aggregates (fun p => p)
                idle
                (snd (stop
                        (snd (saveProbedPositionsToFile (fun p => p)
                                "heights.txt" run_of_two))))
                three_points _ (1, 2, 3)%Z [(4, 5, 6)%Z] "heights.txt"
                eq_refl S L eq_refl eq_refl) as (A & _ & _ & B & C).
  split; [exact A | split; [exact C | exact B]].
Defined.

Lemma grid_points_are_counted_and_within_bounds_witness :
  exists ps : list ProbePoint.t,
    getProbeXYPositions 10 (integer_options 0 20 10 0 10 10) = Some ps
    /\ List.length ps = 6%nat.
Proof.
  assert (D : (0 < 10)%Z) by lia.
  assert (X : exact_axis 0 20 10).
  { unfold exact_axis, safe_integer. simpl. lia. }
  assert (Y : exact_axis 0 10 10).
  { unfold exact_axis, safe_integer. simpl. lia. }
  assert (F : (steps (inject_Z 0) (inject_Z 10) (inject_Z 10)
               + steps (inject_Z 0) (inject_Z 20) (inject_Z 10) + 1
               < 10)%nat).
  { apply Nat.ltb_lt. vm_compute. reflexivity. }
  destruct (grid_points_are_counted_and_within_bounds
              0 20 10 0 10 10 10 D D X Y F) as (ps & G & L & _).
  exists ps. split; [exact G | exact L].
Defined.

Lemma start_instructions_point_by_point_witness :
  fst (start three_points None idle)
  = Normal (point_blocks undefined (num 20) (num 0) (num 0) 0
              [ProbePoint.make (num 0) (num 0);
               ProbePoint.make (num 10) (num 0);
               ProbePoint.make (num 20) (num 0)])
  /\ nth 11 (point_blocks undefined (num 20) (num 0) (num 0) 0
               [ProbePoint.make (num 0) (num 0);
                ProbePoint.make (num 10) (num 0);
                ProbePoint.make (num 20) (num 0)]) ""
     = "(Auto Leveling: probing point 2)".
Proof.
  pose proof (start_instructions_point_by_point idle three_points _ eq_refl)
    as (A & _ & B).
  split; [exact A|]. apply (B 2%nat). simpl. lia.
Defined.

Lemma gcode_is_built_left_to_right_witness :
  gcode "G0" (Some ([("X", num 1)] ++ ("F", undefined) :: [("Y", num 2)]))
  = gcode "G0" (Some ([("X", num 1)] ++ [("Y", num 2)])).
Proof.
  exact (proj1 (gcode_is_built_left_to_right "G0" [("X", num 1)]
                                             [("Y", num 2)])
               "F" undefined eq_refl).
Defined.

Lemma NaN_steps_give_one_point_witness :
  getProbeXYPositions 3
    {| startX := num 0; endX := num 20; stepX := Num NaN;
       startY := num 0; endY := num 10; stepY := Num NaN |}
  = Some [ProbePoint.make (num 0) (num 0)].
Proof.
  refine (proj1 (NaN_steps_give_one_point 0 20 0 10 3 _ _ _)).
  - discriminate.
  - discriminate.
  - lia.
Defined.

Lemma throwing_update_is_still_recorded_witness :
  fst (deliver (probe_update (ProbedSample.make (num 0) (num 0) undefined))
               collecting)
  = Throw TypeError
  /\ List.length
       (probedPositions
          (state (snd (deliver (probe_update
                                  (ProbedSample.make (num 0) (num 0)
                                                     undefined))
                               collecting))))
     = 2%nat.
Proof.
  assert (L : (List.length (probedPositions (state collecting))
               < probePointCount (state collecting))%nat).
  { simpl. lia. }
  pose proof (throwing_update_is_still_recorded collecting
                (ProbedSample.make (num 0) (num 0) undefined) L eq_refl)
    as (A & B & _).
  split; [exact A|]. now rewrite B.
Defined.

Lemma saved_file_has_a_line_of_nine_fields_per_position_witness :
  files (disk (snd (saveProbedPositionsToFile (fun p => p) "heights.txt"
                      poisoned)))
        "heights.txt"
  = Some "0 0 undefined 0 0 0 0 0 0"
  /\ probePointCount
       (state (snd (loadProbedPositionsFromFile (fun p => p) "heights.txt"
                      (snd (stop
                              (snd (saveProbedPositionsToFile (fun p => p)
                                      "heights.txt" poisoned)))))))
     = 1%nat.
Proof.
  pose proof (saved_file_has_a_line_of_nine_fields_per_position
                (fun p => p) "heights.txt" poisoned
                (snd (stop
                        (snd (saveProbedPositionsToFile (fun p => p)
                                "heights.txt" poisoned))))
                eq_refl eq_refl) as (A & _ & _ & B & _).
  split; [exact A | exact B].
Defined.

(** ** Runs on concrete inputs *)

Example gcode_drops_absent_parameters :
  gcode "G0" (Some [("X", num 10); ("Y", undefined); ("F", num 500)])
  = "G0 X10 F500".
Proof. vm_compute. reflexivity. Qed.

Example halved_feedrate_prints_as_decimal :
  ToString (js_div (num (-5)) (num 2)) = "-2.5".
Proof. vm_compute. reflexivity. Qed.

Example split_keeps_trailing_empty_line :
  split newline ("a" ++ String newline "b" ++ String newline "")
  = ["a"; "b"; ""].
Proof. vm_compute. reflexivity. Qed.

Example Number_of_signed_decimal :
  Number_of_string "-12.50" = Finite (-25 # 2).
Proof. vm_compute. reflexivity. Qed.

Example toFixed_pads_with_zeros :
  Number_toFixed (Finite (-5 # 4)) 3 = "-1.250"
  /\ Number_toFixed (Finite 3) 3 = "3.000".
Proof. split; vm_compute; reflexivity. Qed.

(** A line with two tokens only gives a sample without z. *)
Example two_tokens_leave_z_absent :
  parsed_line "1 2" = ProbedSample.make (num 1) (num 2) undefined.
Proof. vm_compute. reflexivity. Qed.

(** The pattern skips what is not a number followed by white space or
    the end of the line: each such stretch yields an absent value. *)
Example tokens_of_a_mixed_line :
  map match_value (matchAll "abc -1.5 .5 1.5x 2" regex)
  = [undefined; Num (Finite (-3 # 2)); Num (Finite (1 # 2)); undefined;
     num 2; undefined].
Proof. vm_compute. reflexivity. Qed.

(** The grid of the planner's documented example: six points, row by
    row. *)
Example grid_of_six_points :
  getProbeXYPositions 10
    {| startX := num 0; endX := num 20; stepX := num 10;
       startY := num 0; endY := num 10; stepY := num 10 |}
  = Some [ProbePoint.make (num 0) (num 0);
          ProbePoint.make (num 10) (num 0);
          ProbePoint.make (num 20) (num 0);
          ProbePoint.make (num 0) (num 10);
          ProbePoint.make (num 10) (num 10);
          ProbePoint.make (num 20) (num 10)].
Proof. vm_compute. reflexivity. Qed.
